(** * ConfigureMacKeys: the config line patcher of [configkeys.py]

    A shallow embedding of [MacEnvManager] (src/configkeys.py): the text
    primitives the code relies on ([str.strip], [str.startswith], [in],
    [str.lower], [readlines], [writelines]), the file system and console as
    an explicit world threaded through a small state monad, and the
    methods [list_env_vars], [get_shell_config_content],
    [backup_config_file], [set_env_var] and [remove_env_var].

    Characters are the code points U+0000..U+00FF, one [ascii] each; a Python
    [str] is a [string]. *)

From Stdlib Require Import Ascii NArith.
From stdpp Require Import base list strings gmap sorting.

(** ** Text primitives *)

Definition LF : ascii := "010"%char.
Definition CR : ascii := "013"%char.

(** The one-character strings ["\n"] and ["\r"]. *)
Definition nl : string := String LF EmptyString.
Definition cr : string := String CR EmptyString.

(** [str.isspace] on one character: the white space of U+0000..U+00FF is
    TAB, LF, VT, FF, CR, FS, GS, RS, US, SPACE, NEL and NBSP. *)
Definition isspace (c : ascii) : bool :=
  let n := N_of_ascii c in
  ((9 <=? n) && (n <=? 13) || (28 <=? n) && (n <=? 32)
   || (n =? 133) || (n =? 160))%N.

(** [str.lower] on one character: A..Z and the capital letters of Latin-1
    (U+00C0..U+00DE without the multiplication sign U+00D7) move up by 32. *)
Definition lower_char (c : ascii) : ascii :=
  let n := N_of_ascii c in
  if ((65 <=? n) && (n <=? 90)
      || (192 <=? n) && (n <=? 222) && negb (n =? 215))%N
  then ascii_of_N (n + 32) else c.

(** [str.lower] on a text of characters U+0000..U+00FF, where it acts on
    each character by itself. It does not beyond: [ulower] below has the
    capital sigma, which depends on what stands around it, and agrees with
    [lower] on U+0000..U+00FF (lemma [ulower_embed]). *)
Fixpoint lower (s : string) : string :=
  match s with
  | EmptyString => EmptyString
  | String c s' => String (lower_char c) (lower s')
  end.

(** [s.lstrip()], [s.rstrip()] and [s.strip()] without argument. *)
Fixpoint lstrip (s : string) : string :=
  match s with
  | EmptyString => EmptyString
  | String c s' => if isspace c then lstrip s' else s
  end.

Fixpoint rstrip (s : string) : string :=
  match s with
  | EmptyString => EmptyString
  | String c s' =>
      match rstrip s' with
      | EmptyString => if isspace c then EmptyString else String c EmptyString
      | r => String c r
      end
  end.

Definition strip (s : string) : string := rstrip (lstrip s).

(** [s.startswith(p)]. *)
Definition startswith (s p : string) : bool := String.prefix p s.

(** [sub in s] on strings. *)
Fixpoint contains (sub s : string) : bool :=
  String.prefix sub s ||
  match s with
  | EmptyString => false
  | String _ s' => contains sub s'
  end.

(** [len(s)] and the slice [s[:n]]. *)
Definition len (s : string) : nat := String.length s.

Fixpoint take_prefix (n : nat) (s : string) : string :=
  match n, s with
  | S n', String c s' => String c (take_prefix n' s')
  | _, _ => EmptyString
  end.

(** Text-mode reading ([open(f, 'r')], universal newlines): CR LF and a lone
    CR both arrive as LF. *)
Fixpoint translate_newlines (s : string) : string :=
  match s with
  | EmptyString => EmptyString
  | String c s' =>
      if Ascii.eqb c CR then
        String LF
          match s' with
          | EmptyString => EmptyString
          | String d s'' =>
              if Ascii.eqb d LF then translate_newlines s''
              else translate_newlines s'
          end
      else String c (translate_newlines s')
  end.

(** Cutting the translated text after every LF; each line keeps its
    terminator, a last line without one is kept as it is. *)
Fixpoint split_lines (s : string) : list string :=
  match s with
  | EmptyString => []
  | String c s' =>
      if Ascii.eqb c LF then String c EmptyString :: split_lines s'
      else match split_lines s' with
           | [] => [String c EmptyString]
           | l :: ls => String c l :: ls
           end
  end.

(** [f.readlines()] on the text of a file. *)
Definition readlines (content : string) : list string :=
  split_lines (translate_newlines content).

(** [f.writelines(lines)] into a file opened with ['w']: the lines one after
    the other, nothing added between them (LF stays LF on macOS). *)
Definition writelines (lines : list string) : string :=
  foldr String.append EmptyString lines.

(** ** The world: files, process environment, console

    [primary_config] is [~/.zshrc] and its backup [~/.zshrc.backup]; both
    paths are fixed, so the [Path] that the Python functions pass around is
    left out. *)

(** What is at a path: nothing, a file that [open(f, 'r')] / [readlines]
    raises on (not decodable, not permitted), or a text file. *)
Inductive file : Type :=
  | Absent
  | Unreadable
  | Text (content : string).

(** What the class prints, one constructor for each outcome; the [print]s
    that follow one another for the same outcome are one message. *)
Inductive message : Type :=
  | MsgNoVars (filter_pattern : option string)
      (* No environment variables found [matching '...'] *)
  | MsgFound (n : nat)            (* Found n environment variable(s): *)
  | MsgRule                       (* fifty dashes *)
  | MsgEntry (key display_value : string)   (* key=display_value *)
  | MsgErrRead                    (* Error reading ...: e *)
  | MsgBackupCreated              (* Backup created: ... *)
  | MsgErrBackup                  (* Error creating backup: e *)
  | MsgErrEmptyName               (* Error: Variable name cannot be empty *)
  | MsgTempHowTo (name value : string)
      (* To set name in your current session, run: export name=value ... *)
  | MsgWarnBackup   (* Warning: Could not create backup, proceeding anyway... *)
  | MsgAdded (name : string)
      (* Added name to ... and the four lines of advice after it *)
  | MsgErrWrite                   (* Error writing to ...: e *)
  | MsgNoConfig                   (* No configuration file found at ... *)
  | MsgNotFound (name : string)   (* Variable 'name' not found in ... *)
  | MsgRemoved (name : string)
      (* Removed name from ...; Variable will be removed from new shell sessions *)
  | MsgRemovedSession (name : string).  (* Removed name from current session *)

(** What an operation does to the outside, in the order it does it. *)
Inductive event : Type :=
  | EvExists                      (* config_file.exists() *)
  | EvOpenRead                    (* open(config_file, 'r'); readlines *)
  | EvCp                          (* subprocess.run(['cp', config, backup]) *)
  | EvMkdir                       (* config_file.parent.mkdir(exist_ok=True) *)
  | EvOpenWrite                   (* open(config_file, 'w'); writelines *)
  | EvEnvDel (name : string)      (* del os.environ[name] *)
  | EvPrint (m : message).

(** [cp_ok], [mkdir_ok] and [write_ok] say whether the corresponding call
    returns or raises; a failing [open(config_file, 'w')] leaves the file as
    it was. *)
Record world : Type := World {
  config : file;
  backup : file;
  environ : gmap string string;
  cp_ok : bool;
  mkdir_ok : bool;
  write_ok : bool;
  trace : list event
}.

Definition log (e : event) (w : world) : world :=
  World (config w) (backup w) (environ w) (cp_ok w) (mkdir_ok w) (write_ok w)
        (trace w ++ [e]).

Definition set_config (f : file) (w : world) : world :=
  World f (backup w) (environ w) (cp_ok w) (mkdir_ok w) (write_ok w) (trace w).

Definition set_backup (f : file) (w : world) : world :=
  World (config w) f (environ w) (cp_ok w) (mkdir_ok w) (write_ok w) (trace w).

Definition set_environ (e : gmap string string) (w : world) : world :=
  World (config w) (backup w) e (cp_ok w) (mkdir_ok w) (write_ok w) (trace w).

(** ** The state monad of the operations *)

Definition M (A : Type) : Type := world → A * world.

Global Instance M_ret : MRet M := λ A (a : A) w, (a, w).
Global Instance M_bind : MBind M :=
  λ A B (f : A → M B) (m : M A) w, let '(a, w') := m w in f a w'.

Definition print (m : message) : M unit := λ w, ((), log (EvPrint m) w).

(** [config_file.exists()]. *)
Definition path_exists : M bool :=
  λ w, (match config w with Absent => false | _ => true end, log EvExists w).

(** [with open(config_file, 'r') as f: lines = f.readlines()]; [None] when
    it raises. *)
Definition open_read : M (option (list string)) :=
  λ w, (match config w with
        | Text content => Some (readlines content)
        | _ => None
        end, log EvOpenRead w).

(** [subprocess.run(['cp', config_file, backup_file], check=True)]; [false]
    when it raises. *)
Definition run_cp : M bool :=
  λ w, if cp_ok w then (true, set_backup (config w) (log EvCp w))
       else (false, log EvCp w).

(** [config_file.parent.mkdir(exist_ok=True)]; [false] when it raises. *)
Definition mkdir_parent : M bool :=
  λ w, (mkdir_ok w, log EvMkdir w).

(** [with open(config_file, 'w') as f: f.writelines(lines)]; [false] when it
    raises. *)
Definition open_write (lines : list string) : M bool :=
  λ w, if write_ok w
       then (true, set_config (Text (writelines lines)) (log EvOpenWrite w))
       else (false, log EvOpenWrite w).

(** [name in os.environ] and [del os.environ[name]]. *)
Definition env_has (name : string) : M bool :=
  λ w, (bool_decide (is_Some (environ w !! name)), w).

Definition env_del (name : string) : M unit :=
  λ w, ((), set_environ (delete name (environ w)) (log (EvEnvDel name) w)).

Fixpoint for_each {A : Type} (l : list A) (body : A → M unit) : M unit :=
  match l with
  | [] => mret ()
  | x :: l' => body x ;; for_each l' body
  end.

(** ** [MacEnvManager] *)

Definition get_current_env_vars : M (gmap string string) :=
  λ w, (environ w, w).

(** [value if len(value) <= 100 else value[:97] + "..."]. *)
Definition display_value (value : string) : string :=
  if len value <=? 100 then value else take_prefix 97 value +:+ "...".

(** [{k: v for k, v in env_vars.items() if filter_pattern.lower() in k.lower()}]
    when [filter_pattern] is truthy, [env_vars] otherwise. *)
Definition filtered_vars (filter_pattern : option string)
    (env_vars : gmap string string) : gmap string string :=
  match filter_pattern with
  | Some (String _ _ as p) =>
      filter (λ kv : string * string, contains (lower p) (lower kv.1) = true)
             env_vars
  | _ => env_vars
  end.

(** [sorted(d.keys())]. *)
Definition sorted_keys (d : gmap string string) : list string :=
  merge_sort String.le (map_to_list d).*1.

Definition list_env_vars (filter_pattern : option string) : M unit :=
  env_vars ← get_current_env_vars;
  let filtered := filtered_vars filter_pattern env_vars in
  if decide (filtered = ∅) then print (MsgNoVars filter_pattern)
  else
    print (MsgFound (size filtered)) ;;
    print MsgRule ;;
    for_each (sorted_keys filtered) (λ key,
      let value := filtered !!! key in
      print (MsgEntry key (display_value value))).

Definition get_shell_config_content : M (list string) :=
  e ← path_exists;
  if negb e then mret []
  else
    r ← open_read;
    match r with
    | Some lines => mret lines
    | None => print MsgErrRead ;; mret []
    end.

Definition backup_config_file : M bool :=
  e ← path_exists;
  if (e : bool) then
    ok ← run_cp;
    if (ok : bool) then print MsgBackupCreated ;; mret true
    else print MsgErrBackup ;; mret false
  else mret true.

Definition marker : string := "# Added by ConfigureMacKeys".

(** [f"export {name}={value}\n"] and [f"export {name}="]. *)
Definition export_line (name value : string) : string :=
  "export " +:+ name +:+ "=" +:+ value +:+ nl.

Definition pattern (name : string) : string := "export " +:+ name +:+ "=".

(** [line.strip().startswith(pattern)]. *)
Definition declares (name line : string) : bool :=
  startswith (strip line) (pattern name).

(** [[line for line in lines if not line.strip().startswith(pattern)]]. *)
Definition remove_entries (name : string) (lines : list string) : list string :=
  List.filter (λ line, negb (declares name line)) lines.

(** Lines 100 to 111 of [set_env_var]: the new list of lines. *)
Definition patched_lines (name value : string) (lines : list string)
    : list string :=
  let lines := remove_entries name lines in
  let comment_line := marker +:+ nl in
  let lines :=
    if negb (existsb (contains marker) lines)
    then lines ++ [nl +:+ comment_line] else lines in
  lines ++ [export_line name value].

Definition set_env_var (name value : string) (permanent : bool) : M bool :=
  if bool_decide (name = "") then print MsgErrEmptyName ;; mret false
  else if negb permanent then print (MsgTempHowTo name value) ;; mret true
  else
    lines ← get_shell_config_content;
    backed ← backup_config_file;
    (if negb backed then print MsgWarnBackup else mret ()) ;;
    let lines := patched_lines name value lines in
    made ← mkdir_parent;
    if negb made then print MsgErrWrite ;; mret false
    else
      written ← open_write lines;
      if negb written then print MsgErrWrite ;; mret false
      else print (MsgAdded name) ;; mret true.

Definition remove_env_var (name : string) : M bool :=
  lines ← get_shell_config_content;
  if bool_decide (lines = []) then print MsgNoConfig ;; mret false
  else
    backed ← backup_config_file;
    (if negb backed then print MsgWarnBackup else mret ()) ;;
    let original_count := length lines in
    let lines := remove_entries name lines in
    if length lines =? original_count
    then print (MsgNotFound name) ;; mret false
    else
      written ← open_write lines;
      if negb written then print MsgErrWrite ;; mret false
      else
        print (MsgRemoved name) ;;
        present ← env_has name;
        (if (present : bool)
         then env_del name ;; print (MsgRemovedSession name)
         else mret ()) ;;
        mret true.

(** ** Reading a world back *)

(** The lines a reader of the config file gets: [readlines] of its text. *)
Definition file_lines (f : file) : list string :=
  match f with
  | Text content => readlines content
  | _ => []
  end.

(** How many lines declare [name]. *)
Definition count_declaring (name : string) (lines : list string) : nat :=
  length (List.filter (declares name) lines).

(** How many lines are the sentinel comment, and how many carry its text. *)
Definition count_marker_lines (lines : list string) : nat :=
  length (List.filter (λ line, String.eqb line (marker +:+ nl)) lines).

Definition count_marker_text (lines : list string) : nat :=
  length (List.filter (contains marker) lines).


(** No line terminator inside: neither LF nor CR. *)
Fixpoint single_line (s : string) : bool :=
  match s with
  | EmptyString => true
  | String c s' => negb (Ascii.eqb c LF) && negb (Ascii.eqb c CR) && single_line s'
  end.

(** A line as [readlines] gives it when the text goes on after it: no
    terminator inside, an LF at its end. *)
Fixpoint terminated (s : string) : bool :=
  match s with
  | EmptyString => false
  | String c EmptyString => Ascii.eqb c LF
  | String c s' => negb (Ascii.eqb c LF) && negb (Ascii.eqb c CR) && terminated s'
  end.

(** No CR inside: what text-mode reading delivers. *)
Fixpoint nocr (s : string) : bool :=
  match s with
  | EmptyString => true
  | String c s' => negb (Ascii.eqb c CR) && nocr s'
  end.

(** The shape of a list of lines cut from one text: every line but the last
    is [terminated]; the last is [terminated], or not empty and without a
    terminator. *)
Fixpoint well_split (ls : list string) : bool :=
  match ls with
  | [] => true
  | l :: ls' =>
      match ls' with
      | [] => terminated l || (negb (String.eqb l EmptyString) && single_line l)
      | _ => terminated l && well_split ls'
      end
  end.

(** What reading gives after an LF is written behind the lines [ls]: a last
    line without terminator gets it, otherwise there is one more, blank,
    line. *)
Fixpoint close_last (ls : list string) : list string :=
  match ls with
  | [] => [nl]
  | l :: ls' =>
      match ls' with
      | [] => if terminated l then [l; nl] else [l +:+ nl]
      | _ => l :: close_last ls'
      end
  end.

(** The events a run added to the trace. *)
Definition new_events (w w' : world) : list event :=
  drop (length (trace w)) (trace w').

Definition log_all (evs : list event) (w : world) : world :=
  World (config w) (backup w) (environ w) (cp_ok w) (mkdir_ok w) (write_ok w)
        (trace w ++ evs).

(** What [get_shell_config_content] and [backup_config_file] (with the
    warning of its caller) leave in the trace, and the backup file after
    [backup_config_file]. *)
Definition read_events (f : file) : list event :=
  match f with
  | Absent => [EvExists]
  | Unreadable => [EvExists; EvOpenRead; EvPrint MsgErrRead]
  | Text _ => [EvExists; EvOpenRead]
  end.

Definition backup_events (f : file) (cp : bool) : list event :=
  match f with
  | Absent => [EvExists]
  | _ => if cp then [EvExists; EvCp; EvPrint MsgBackupCreated]
         else [EvExists; EvCp; EvPrint MsgErrBackup; EvPrint MsgWarnBackup]
  end.

Definition backup_after (w : world) : file :=
  match config w with
  | Absent => backup w
  | f => if cp_ok w then f else backup w
  end.

(** A sequence of [configkeys set name value] runs, one after the other. *)
Fixpoint set_all (calls : list (string * string)) (w : world) : world :=
  match calls with
  | [] => w
  | (name, value) :: calls' => set_all calls' (set_env_var name value true w).2
  end.

(** The [key=display_value] lines among the events. *)
Definition printed_entries (evs : list event) : list (string * string) :=
  omap (λ e, match e with
             | EvPrint (MsgEntry key shown) => Some (key, shown)
             | _ => None
             end) evs.

(** The lines that declare [name]. *)
Definition declaring (name : string) (lines : list string) : list string :=
  List.filter (declares name) lines.

(** Idempotence at one input: after [set name v1] and [set name v2], the
    lines of the file that declare [name] are the one line
    [export name=v2]. *)
Definition idempotence_at (name v1 v2 : string) (w : world) : Prop :=
  let w1 := (set_env_var name v1 true w).2 in
  let w2 := (set_env_var name v2 true w1).2 in
  declaring name (file_lines (config w2)) = [export_line name v2].


(** Marker singularity at one input: after the calls, one line of the file
    carries the sentinel text. *)
Definition marker_singular_at (calls : list (string * string)) (w : world) : Prop :=
  count_marker_text (file_lines (config (set_all calls w))) = 1.

(** A call of [set] with a name and without the sentinel text in its
    line. *)
Definition plain_call (call : string * string) : bool :=
  negb (String.eqb call.1 EmptyString)
  && negb (contains marker (export_line call.1 call.2)).

(** The pairs the loop of [list_env_vars] goes through:
    [for key in sorted(filtered_vars.keys()): value = filtered_vars[key]]. *)
Definition listed (filter_pattern : option string)
    (env_vars : gmap string string) : list (string * string) :=
  (λ key, (key, filtered_vars filter_pattern env_vars !!! key))
    <$> sorted_keys (filtered_vars filter_pattern env_vars).

(** The key holds the filter, case ignored; no filter lets every key
    through. *)
Definition matches (filter_pattern : option string) (key : string) : Prop :=
  match filter_pattern with
  | None => True
  | Some p => contains (lower p) (lower key) = true
  end.

(** The state of the file once the sentinel is in: all lines end in a
    terminator, one of them is the sentinel line, no other carries its
    text. *)
Definition marked (ls : list string) : Prop :=
  Forall (λ l, terminated l = true) ls
  ∧ ∃ l1 l2, ls = l1 ++ (marker +:+ nl) :: l2
             ∧ Forall (λ l, contains marker l = false) (l1 ++ l2).

(** The file-touching events. *)
Definition is_file_access (e : event) : bool :=
  match e with
  | EvExists | EvOpenRead | EvCp | EvMkdir | EvOpenWrite => true
  | _ => false
  end.

Definition is_write (e : event) : bool :=
  match e with EvOpenWrite => true | _ => false end.

Definition is_backup (e : event) : bool :=
  match e with EvCp => true | _ => false end.

(** A world before anything happened. *)
Definition fresh (cfg : file) : world :=
  World cfg Absent ∅ true true true [].

(** ** Further readings of a run *)

(** The world after [get_shell_config_content] and [backup_config_file]
    (with the warning its callers print): the backup is tried, the trace has
    the read and the backup in it, nothing else has changed. *)
Definition prepared (w : world) : world :=
  World (config w) (backup_after w) (environ w) (cp_ok w) (mkdir_ok w)
        (write_ok w)
        (trace w ++ read_events (config w) ++ backup_events (config w) (cp_ok w)).

Definition is_read (e : event) : bool :=
  match e with EvOpenRead => true | _ => false end.

Definition count_events (f : event → bool) (evs : list event) : nat :=
  length (List.filter f evs).

(** No [cp] is run once the file has been opened for writing. *)
Fixpoint backup_before_write (evs : list event) : bool :=
  match evs with
  | [] => true
  | e :: evs' =>
      if is_write e then negb (existsb is_backup evs')
      else backup_before_write evs'
  end.

(** No ['='] inside. *)
Fixpoint no_equals (s : string) : bool :=
  match s with
  | EmptyString => true
  | String c s' => negb (Ascii.eqb c "="%char) && no_equals s'
  end.

(** ** Case, letter by letter, and case beyond U+00FF *)







(** A Python [str] with characters beyond U+00FF, as its code points. The
    functions below are [str.lower], [in] and the filter of [list_env_vars]
    on such texts; [ulower] is [str.lower] on texts whose characters are
    U+0000..U+00FF or the Greek letters capital alpha (U+0391), capital
    sigma (U+03A3), alpha (U+03B1), final sigma (U+03C2) and sigma
    (U+03C3). *)
Fixpoint embed (s : string) : list N :=
  match s with
  | EmptyString => []
  | String c s' => N_of_ascii c :: embed s'
  end.

(** The characters with the property Cased, and those with the property
    Case_Ignorable (apostrophe, full stop, colon, circumflex, grave,
    diaeresis, soft hyphen, macron, acute, middle dot, cedilla). *)
Definition is_cased (c : N) : bool :=
  ((65 <=? c) && (c <=? 90) || (97 <=? c) && (c <=? 122)
   || (c =? 170) || (c =? 181) || (c =? 186)
   || (192 <=? c) && (c <=? 214) || (216 <=? c) && (c <=? 246)
   || (248 <=? c) && (c <=? 255)
   || (c =? 913) || (c =? 931) || (c =? 945) || (c =? 962) || (c =? 963))%N.

Definition is_case_ignorable (c : N) : bool :=
  ((c =? 39) || (c =? 46) || (c =? 58) || (c =? 94) || (c =? 96)
   || (c =? 168) || (c =? 173) || (c =? 175) || (c =? 180) || (c =? 183)
   || (c =? 184))%N.

(** The first character that is not Case_Ignorable. *)
Fixpoint skip_ignorable (l : list N) : option N :=
  match l with
  | [] => None
  | c :: l' => if is_case_ignorable c then skip_ignorable l' else Some c
  end.

(** A capital sigma is in final position when a cased letter comes before
    it and none after it, Case_Ignorable characters skipped on both sides;
    [before] is what comes before it, nearest first. *)
Definition final_sigma (before after : list N) : bool :=
  match skip_ignorable before with
  | Some c =>
      is_cased c &&
      match skip_ignorable after with
      | None => true
      | Some d => negb (is_cased d)
      end
  | None => false
  end.

Definition ulower_char (c : N) : N :=
  if ((65 <=? c) && (c <=? 90)
      || (192 <=? c) && (c <=? 222) && negb (c =? 215))%N
  then (c + 32)%N
  else if (c =? 913)%N then 945%N else c.

Fixpoint ulower_go (before l : list N) : list N :=
  match l with
  | [] => []
  | c :: l' =>
      (if (c =? 931)%N
       then if final_sigma before l' then 962%N else 963%N
       else ulower_char c)
      :: ulower_go (c :: before) l'
  end.

Definition ulower (l : list N) : list N := ulower_go [] l.

Fixpoint uprefix (p s : list N) : bool :=
  match p, s with
  | [], _ => true
  | a :: p', c :: s' => (a =? c)%N && uprefix p' s'
  | _ :: _, [] => false
  end.

Fixpoint ucontains (p s : list N) : bool :=
  uprefix p s ||
  match s with
  | [] => false
  | _ :: s' => ucontains p s'
  end.



(** [remove_env_var] got as far as the backup and ended with the not-found
    message. *)
Definition not_found_outcome (name : string) (w : world) : Prop :=
  (remove_env_var name w).1 = false
  ∧ In EvCp (new_events w (remove_env_var name w).2)
  ∧ In (EvPrint (MsgNotFound name)) (new_events w (remove_env_var name w).2).

(** * Properties *)

(** ** The primitives on small inputs *)

Example readlines_universal_newlines :
  readlines ("a" +:+ cr +:+ nl +:+ "b" +:+ cr +:+ "c")
  = ["a" +:+ nl; "b" +:+ nl; "c"].
Proof. reflexivity. Qed.

Example strip_both_ends : strip ("  export A=1 " +:+ nl) = "export A=1".
Proof. reflexivity. Qed.

Example lower_ascii : lower "PaTh_1" = "path_1".
Proof. reflexivity. Qed.

Example declares_indented : declares "A" ("   export A=1" +:+ nl) = true.
Proof. reflexivity. Qed.

Example declares_longer_name : declares "A" ("export AB=1" +:+ nl) = false.
Proof. reflexivity. Qed.

Example contains_inside : contains "path" "my_path_var" = true.
Proof. reflexivity. Qed.

(** ** Strings *)

Local Arguments String.append !_ _ / : simpl nomatch.
Local Arguments export_line : simpl never.
Local Arguments pattern : simpl never.
Local Arguments declares : simpl never.

Section string_facts.
Implicit Types (s t p : string) (c : ascii).

Lemma string_app_assoc s1 s2 s3 : (s1 +:+ s2) +:+ s3 = s1 +:+ (s2 +:+ s3).
Proof. induction s1 as [|c s1 IH]; simpl; [done|]. by rewrite IH. Qed.

Lemma string_app_nil_r s : s +:+ "" = s.
Proof. induction s as [|c s IH]; simpl; [done|]. by rewrite IH. Qed.

Lemma prefix_nil s : String.prefix "" s = true.
Proof. by destruct s. Qed.

Lemma prefix_cons c p d s :
  String.prefix (String c p) (String d s)
  = if Ascii.eqb c d then String.prefix p s else false.
Proof.
  simpl. destruct (ascii_dec c d) as [->|Hne].
  - by rewrite Ascii.eqb_refl.
  - apply Ascii.eqb_neq in Hne. by rewrite Hne.
Qed.

Lemma prefix_app p s t : String.prefix (p +:+ s) (p +:+ t) = String.prefix s t.
Proof.
  induction p as [|c p IH]; [done|].
  change (String.prefix (String c (p +:+ s)) (String c (p +:+ t)) = String.prefix s t).
  by rewrite prefix_cons, Ascii.eqb_refl.
Qed.

Lemma prefix_app_r p s t : String.prefix p s = true → String.prefix p (s +:+ t) = true.
Proof.
  revert s. induction p as [|c p IH]; intros s H; [apply prefix_nil|].
  destruct s as [|d s]; [done|].
  change (String d s +:+ t) with (String d (s +:+ t)).
  rewrite prefix_cons in *. destruct (Ascii.eqb c d); [by apply IH|done].
Qed.

Lemma contains_cons_r p c s : contains p s = true → contains p (String c s) = true.
Proof. intros H. simpl. rewrite H. apply orb_true_r. Qed.

Lemma contains_nil s : contains "" s = true.
Proof. destruct s; simpl; by rewrite ?prefix_nil. Qed.

Lemma rstrip_cons_keep c s : isspace c = false → rstrip (String c s) = String c (rstrip s).
Proof. intros Hc. simpl. rewrite Hc. by destruct (rstrip s). Qed.

Lemma rstrip_app_keep s t : rstrip t ≠ "" → rstrip (s +:+ t) = s +:+ rstrip t.
Proof.
  intros Ht. induction s as [|c s IH]; [done|].
  change (rstrip (String c (s +:+ t)) = String c (s +:+ rstrip t)).
  simpl. rewrite IH. destruct (s +:+ rstrip t) eqn:E; [|done].
  destruct s; simpl in E; [done|discriminate].
Qed.
End string_facts.

(** The line [set_env_var] appends declares its own name, whatever the name
    and the value are. *)
Lemma declares_export_line name value : declares name (export_line name value) = true.
Proof.
  unfold declares, startswith, strip, export_line, pattern.
  change (lstrip ("export " +:+ name +:+ "=" +:+ value +:+ nl))
    with ("export " +:+ name +:+ "=" +:+ value +:+ nl).
  assert (Hr : rstrip ("=" +:+ value +:+ nl) = "=" +:+ rstrip (value +:+ nl)).
  { by apply (rstrip_cons_keep "="%char). }
  assert (Hn : rstrip (name +:+ "=" +:+ value +:+ nl)
               = name +:+ "=" +:+ rstrip (value +:+ nl)).
  { rewrite rstrip_app_keep; by rewrite Hr. }
  rewrite (rstrip_app_keep "export "), Hn.
  - rewrite (prefix_app "export "), (prefix_app name).
    change (String.prefix (String "="%char "")
              (String "="%char (rstrip (value +:+ nl))) = true).
    by rewrite prefix_cons, prefix_nil.
  - rewrite Hn. by destruct name.
Qed.

(** ** Reading lines back *)

Section readlines_facts.
Implicit Types (s t l : string) (c d : ascii) (ls : list string).

Lemma string_ind2 (P : string → Prop) :
  P "" → (∀ c, P (String c "")) →
  (∀ c d s, P s → P (String d s) → P (String c (String d s))) →
  ∀ s, P s.
Proof.
  intros H0 H1 H2 s.
  assert (H : P s ∧ ∀ c, P (String c s)); [|by destruct H].
  induction s as [|d s [IHs IHc]]; [by split|].
  split; [apply IHc|]. intros c. by apply H2.
Qed.

Lemma translate_cons c s :
  Ascii.eqb c CR = false →
  translate_newlines (String c s) = String c (translate_newlines s).
Proof. intros Hc. simpl. by rewrite Hc. Qed.

Lemma terminated_cons c l :
  Ascii.eqb c LF = false → Ascii.eqb c CR = false → terminated l = true →
  terminated (String c l) = true.
Proof. intros Hl Hc Ht. destruct l; [done|]. simpl in *. by rewrite Hl, Hc, Ht. Qed.

Lemma terminated_inv c l :
  terminated (String c l) = true →
  (l = "" ∧ c = LF) ∨
  (Ascii.eqb c LF = false ∧ Ascii.eqb c CR = false ∧ terminated l = true).
Proof.
  destruct l as [|d l].
  - simpl. intros ->%Ascii.eqb_eq. by left.
  - intros H. right. change (terminated (String c (String d l)))
      with (negb (Ascii.eqb c LF) && negb (Ascii.eqb c CR)
            && terminated (String d l)) in H.
    destruct (Ascii.eqb c LF), (Ascii.eqb c CR); simpl in H; try done.
Qed.

Lemma translate_terminated l s :
  terminated l = true →
  translate_newlines (l +:+ s) = l +:+ translate_newlines s.
Proof.
  induction l as [|c l IH]; [done|].
  intros [[-> ->]|(Hl & Hc & Ht)]%terminated_inv.
  - done.
  - change (String c l +:+ s) with (String c (l +:+ s)).
    by rewrite translate_cons, IH.
Qed.

Lemma split_lines_terminated l t :
  terminated l = true → split_lines (l +:+ t) = l :: split_lines t.
Proof.
  induction l as [|c l IH]; [done|].
  intros [[-> ->]|(Hl & Hc & Ht)]%terminated_inv.
  - done.
  - change (String c l +:+ t) with (String c (l +:+ t)).
    simpl. by rewrite Hl, IH.
Qed.

Lemma readlines_terminated l s :
  terminated l = true → readlines (l +:+ s) = l :: readlines s.
Proof.
  intros Hl. unfold readlines.
  by rewrite translate_terminated, split_lines_terminated.
Qed.

Lemma readlines_writelines_app ls s :
  Forall (λ l, terminated l = true) ls →
  readlines (writelines ls +:+ s) = ls ++ readlines s.
Proof.
  induction 1 as [|l ls Hl _ IH]; [done|].
  simpl. by rewrite string_app_assoc, readlines_terminated, IH.
Qed.

Lemma single_line_terminated l : single_line l = true → terminated (l +:+ nl) = true.
Proof.
  induction l as [|c l IH]; [done|]. simpl.
  intros [[Hl Hc]%andb_true_iff Hs]%andb_true_iff.
  apply negb_true_iff in Hl, Hc.
  change (terminated (String c (l +:+ nl)) = true).
  apply terminated_cons; auto.
Qed.

Lemma nocr_app_l t u : nocr (t +:+ u) = true → nocr t = true.
Proof.
  induction t as [|c t IH]; [done|]. simpl.
  intros [Hc Ht]%andb_true_iff. rewrite Hc. by apply IH.
Qed.

Lemma translate_cr_lf s :
  translate_newlines (String CR (String LF s)) = String LF (translate_newlines s).
Proof. reflexivity. Qed.

Lemma translate_cr_other d s :
  Ascii.eqb d LF = false →
  translate_newlines (String CR (String d s))
  = String LF (translate_newlines (String d s)).
Proof.
  intros Hd.
  change (translate_newlines (String CR (String d s)))
    with (String LF (if Ascii.eqb d LF then translate_newlines s
                     else translate_newlines (String d s))).
  by rewrite Hd.
Qed.

Lemma nocr_cons c s : nocr (String c s) = negb (Ascii.eqb c CR) && nocr s.
Proof. reflexivity. Qed.

Lemma nocr_translate s : nocr (translate_newlines s) = true.
Proof.
  induction s as [|c|c d s IHs IHd] using string_ind2; [done|..].
  - destruct (Ascii.eqb_spec c CR) as [->|Hc%Ascii.eqb_neq]; [done|].
    rewrite translate_cons, nocr_cons by done. by rewrite Hc.
  - destruct (Ascii.eqb_spec c CR) as [->|Hc%Ascii.eqb_neq].
    + destruct (Ascii.eqb_spec d LF) as [->|Hd%Ascii.eqb_neq].
      * by rewrite translate_cr_lf.
      * rewrite translate_cr_other, nocr_cons by done. by rewrite IHd.
    + rewrite translate_cons, nocr_cons by done. by rewrite Hc, IHd.
Qed.

Lemma translate_app_nl s : ∃ t, translate_newlines (s +:+ nl) = t +:+ nl.
Proof.
  induction s as [|c|c d s [ts IHs] [td IHd]] using string_ind2.
  - by exists "".
  - destruct (Ascii.eqb_spec c CR) as [->|Hc%Ascii.eqb_neq].
    + by exists "".
    + exists (String c ""). change (String c "" +:+ nl) with (String c nl).
      by rewrite translate_cons.
  - change (String c (String d s) +:+ nl) with (String c (String d (s +:+ nl))).
    change (String d s +:+ nl) with (String d (s +:+ nl)) in IHd.
    destruct (Ascii.eqb_spec c CR) as [->|Hc%Ascii.eqb_neq].
    + destruct (Ascii.eqb_spec d LF) as [->|Hd%Ascii.eqb_neq].
      * exists (String LF ts). by rewrite translate_cr_lf, IHs.
      * exists (String LF td). by rewrite translate_cr_other, IHd.
    + exists (String c td). by rewrite translate_cons, IHd.
Qed.

Lemma split_lines_nil t : split_lines t = [] → t = "".
Proof.
  destruct t as [|c t]; [done|]. simpl.
  destruct (Ascii.eqb c LF); [done|]. by destruct (split_lines t).
Qed.

Lemma split_lines_app_nl t :
  nocr t = true → Forall (λ l, terminated l = true) (split_lines (t +:+ nl)).
Proof.
  induction t as [|c t IH]; [by repeat constructor|]. simpl nocr.
  intros [Hc%negb_true_iff Ht]%andb_true_iff. specialize (IH Ht).
  change (String c t +:+ nl) with (String c (t +:+ nl)). simpl.
  destruct (Ascii.eqb c LF) eqn:Hl.
  - constructor; [|done]. apply Ascii.eqb_eq in Hl as ->. done.
  - destruct (split_lines (t +:+ nl)) as [|l0 ls] eqn:E.
    + apply split_lines_nil in E. by destruct t.
    + inversion IH; subst. constructor; [|done]. by apply terminated_cons.
Qed.

(** A text that ends in LF reads as terminated lines only. *)
Lemma readlines_app_nl s : Forall (λ l, terminated l = true) (readlines (s +:+ nl)).
Proof.
  unfold readlines. destruct (translate_app_nl s) as [t Ht].
  rewrite Ht. apply split_lines_app_nl.
  apply (nocr_app_l t nl). rewrite <- Ht. apply nocr_translate.
Qed.

Lemma well_split_cons l ls :
  terminated l = true → well_split ls = true → well_split (l :: ls) = true.
Proof. intros Hl Hls. destruct ls; simpl; by rewrite Hl. Qed.

Lemma well_split_inv l ls :
  well_split (l :: ls) = true →
  well_split ls = true ∧ (ls ≠ [] → terminated l = true).
Proof.
  destruct ls as [|l' ls]; [done|].
  change (well_split (l :: l' :: ls)) with (terminated l && well_split (l' :: ls)).
  by intros [??]%andb_true_iff.
Qed.

Lemma well_split_one l :
  well_split [l] = terminated l || (negb (String.eqb l "") && single_line l).
Proof. reflexivity. Qed.

Lemma single_line_cons c l :
  single_line (String c l)
  = negb (Ascii.eqb c LF) && negb (Ascii.eqb c CR) && single_line l.
Proof. reflexivity. Qed.

Lemma well_split_push c l ls :
  Ascii.eqb c LF = false → Ascii.eqb c CR = false →
  well_split (l :: ls) = true → well_split (String c l :: ls) = true.
Proof.
  intros Hl Hc. destruct ls as [|l' ls].
  - rewrite !well_split_one. intros [Ht|[Hne Hs]%andb_true_iff]%orb_true_iff.
    + by rewrite terminated_cons.
    + apply orb_true_iff. right. by rewrite single_line_cons, Hl, Hc, Hs.
  - change (well_split (?x :: l' :: ls)) with (terminated x && well_split (l' :: ls)).
    intros [Ht Hw]%andb_true_iff. by rewrite terminated_cons.
Qed.

Lemma split_lines_well_split t : nocr t = true → well_split (split_lines t) = true.
Proof.
  induction t as [|c t IH]; [done|]. rewrite nocr_cons.
  intros [Hc%negb_true_iff Ht]%andb_true_iff. specialize (IH Ht). simpl.
  destruct (Ascii.eqb_spec c LF) as [->|Hl%Ascii.eqb_neq].
  - by apply well_split_cons.
  - destruct (split_lines t) as [|l0 ls].
    + simpl. by rewrite Hl, Hc.
    + by apply well_split_push.
Qed.

Lemma readlines_well_split s : well_split (readlines s) = true.
Proof. apply split_lines_well_split, nocr_translate. Qed.

Lemma single_line_translate l : single_line l = true → translate_newlines l = l.
Proof.
  induction l as [|c l IH]; [done|]. simpl single_line.
  intros [[Hl%negb_true_iff Hc%negb_true_iff]%andb_true_iff Hs]%andb_true_iff.
  by rewrite translate_cons, IH.
Qed.

Lemma single_line_split c l :
  single_line (String c l) = true → split_lines (String c l) = [String c l].
Proof.
  revert c. induction l as [|d l IH]; intros c; simpl single_line;
    intros [[Hl%negb_true_iff Hc]%andb_true_iff Hs]%andb_true_iff.
  - simpl. by rewrite Hl.
  - change (split_lines (String c (String d l)))
      with (if Ascii.eqb c LF then String c "" :: split_lines (String d l)
            else match split_lines (String d l) with
                 | [] => [String c ""]
                 | l0 :: ls => String c l0 :: ls
                 end).
    by rewrite Hl, IH.
Qed.

(** A last line without terminator is read as it is. *)
Lemma readlines_open l :
  String.eqb l "" = false → single_line l = true → readlines l = [l].
Proof.
  intros Hne Hs. unfold readlines. rewrite single_line_translate by done.
  destruct l; [done|]. by apply single_line_split.
Qed.

(** Writing a well-split list of lines and reading it back gives the
    list. *)
Lemma readlines_writelines ls :
  well_split ls = true → readlines (writelines ls) = ls.
Proof.
  induction ls as [|l ls IH]; [done|].
  intros Hw. destruct (well_split_inv _ _ Hw) as [Hls Hl].
  destruct ls as [|l' ls].
  - simpl. rewrite string_app_nil_r. simpl in Hw.
    apply orb_true_iff in Hw as [Ht|[Hne%negb_true_iff Hs]%andb_true_iff].
    + rewrite <- (string_app_nil_r l) at 1. by rewrite readlines_terminated.
    + by apply readlines_open.
  - change (writelines (l :: l' :: ls)) with (l +:+ writelines (l' :: ls)).
    rewrite readlines_terminated by (by apply Hl). by rewrite IH.
Qed.

(** The same with an LF and more text written behind the lines. *)
Lemma readlines_close ls s :
  well_split ls = true →
  readlines (writelines ls +:+ nl +:+ s) = close_last ls ++ readlines s.
Proof.
  induction ls as [|l ls IH].
  - intros _. change (writelines [] +:+ nl +:+ s) with (nl +:+ s).
    by rewrite (readlines_terminated nl).
  - intros Hw. destruct (well_split_inv _ _ Hw) as [Hls Hl].
    destruct ls as [|l' ls].
    + simpl writelines. rewrite string_app_nil_r. simpl close_last. simpl in Hw.
      destruct (terminated l) eqn:Ht.
      * by rewrite readlines_terminated, (readlines_terminated nl).
      * simpl in Hw. apply andb_true_iff in Hw as [_ Hs].
        rewrite <- string_app_assoc.
        by rewrite readlines_terminated by (by apply single_line_terminated).
    + change (writelines (l :: l' :: ls)) with (l +:+ writelines (l' :: ls)).
      change (close_last (l :: l' :: ls)) with (l :: close_last (l' :: ls)).
      rewrite string_app_assoc, readlines_terminated by (by apply Hl).
      by rewrite IH.
Qed.

Lemma close_last_terminated ls :
  well_split ls = true → Forall (λ l, terminated l = true) (close_last ls).
Proof.
  induction ls as [|l ls IH]; [by repeat constructor|].
  intros Hw. destruct (well_split_inv _ _ Hw) as [Hls Hl].
  destruct ls as [|l' ls].
  - simpl in *. destruct (terminated l) eqn:Ht.
    + by repeat constructor.
    + simpl in Hw. apply andb_true_iff in Hw as [_ Hs].
      repeat constructor. by apply single_line_terminated.
  - change (close_last (l :: l' :: ls)) with (l :: close_last (l' :: ls)).
    constructor; [by apply Hl|by apply IH].
Qed.

Lemma well_split_filter (f : string → bool) ls :
  well_split ls = true → well_split (List.filter f ls) = true.
Proof.
  induction ls as [|l ls IH]; [done|].
  intros Hw. destruct (well_split_inv _ _ Hw) as [Hls Hl]. simpl.
  destruct (f l); [|by apply IH].
  destruct ls as [|l' ls]; [done|].
  apply well_split_cons; [by apply Hl|by apply IH].
Qed.

Lemma terminated_well_split ls :
  Forall (λ l, terminated l = true) ls → well_split ls = true.
Proof. induction 1; [done|]. by apply well_split_cons. Qed.

Lemma terminated_filter (f : string → bool) ls :
  Forall (λ l, terminated l = true) ls →
  Forall (λ l, terminated l = true) (List.filter f ls).
Proof.
  induction 1 as [|l ls Hl _ IH]; [constructor|]. simpl.
  destruct (f l); [by constructor|done].
Qed.
End readlines_facts.

(** ** Running the operations *)

Ltac run_op :=
  cbv [mbind mret M_bind M_ret get_shell_config_content backup_config_file
       path_exists open_read run_cp mkdir_parent open_write print env_has
       env_del log set_config set_backup set_environ log_all
       config backup environ cp_ok mkdir_ok write_ok trace negb
       read_events backup_events backup_after file_lines];
  repeat rewrite <- app_assoc; simpl app.

Lemma new_events_app w w' evs : trace w' = trace w ++ evs → new_events w w' = evs.
Proof. intros H. unfold new_events. by rewrite H, drop_app_length. Qed.

(** A permanent [set] with a name, when [mkdir] and the write go through:
    the file is the patched list of lines, whatever was read. *)
Lemma set_env_var_ok name value w :
  name ≠ "" → mkdir_ok w = true → write_ok w = true →
  set_env_var name value true w
  = (true,
     World (Text (writelines (patched_lines name value (file_lines (config w)))))
           (backup_after w) (environ w) (cp_ok w) true true
           (trace w ++ read_events (config w)
              ++ backup_events (config w) (cp_ok w)
              ++ [EvMkdir; EvOpenWrite; EvPrint (MsgAdded name)])).
Proof.
  intros Hname Hmk Hwr. destruct w as [cfg bk env cp mk wr tr].
  simpl in Hmk, Hwr. subst mk wr. unfold set_env_var.
  rewrite bool_decide_false by done.
  destruct cfg, cp; run_op; reflexivity.
Qed.

(** ** Where a text without line terminator can occur *)

Section contains_facts.
Implicit Types (s t l : string) (c d : ascii) (ls : list string).

Lemma contains_cons m c s :
  contains m (String c s) = String.prefix m (String c s) || contains m s.
Proof. reflexivity. Qed.

Lemma prefix_contains m s : String.prefix m s = true → contains m s = true.
Proof.
  intros H. destruct s as [|c s]; [by destruct m|]. by rewrite contains_cons, H.
Qed.

Lemma contains_app_r m s t : contains m t = true → contains m (s +:+ t) = true.
Proof.
  intros H. induction s as [|c s IH]; [done|].
  change (String c s +:+ t) with (String c (s +:+ t)). by apply contains_cons_r.
Qed.

Lemma contains_app_l m s t : contains m s = true → contains m (s +:+ t) = true.
Proof.
  induction s as [|c s IH].
  - destruct m; [intros _; apply contains_nil|done].
  - change (String c s +:+ t) with (String c (s +:+ t)).
    rewrite !contains_cons. intros [H|H]%orb_true_iff; apply orb_true_iff.
    + left. by apply (prefix_app_r m (String c s) t).
    + right. by apply IH.
Qed.

Lemma contains_writelines m l ls :
  In l ls → contains m l = true → contains m (writelines ls) = true.
Proof.
  intros Hin Hl. induction ls as [|l0 ls IH]; [done|].
  simpl. destruct Hin as [->|Hin].
  - by apply contains_app_l.
  - by apply contains_app_r, IH.
Qed.

Lemma writelines_app ls1 ls2 :
  writelines (ls1 ++ ls2) = writelines ls1 +:+ writelines ls2.
Proof.
  induction ls1 as [|l ls1 IH]; [done|]. simpl.
  by rewrite IH, string_app_assoc.
Qed.

(** Cutting a text into lines loses nothing. *)
Lemma writelines_split_lines t : writelines (split_lines t) = t.
Proof.
  induction t as [|c t IH]; [done|]. simpl split_lines.
  destruct (Ascii.eqb c LF).
  - simpl. by rewrite IH.
  - destruct (split_lines t) as [|l0 ls] eqn:E.
    + apply split_lines_nil in E as ->. done.
    + simpl in *. by rewrite IH.
Qed.

Lemma translate_cr s : ∃ t, translate_newlines (String CR s) = String LF t.
Proof.
  destruct s as [|d s]; [by exists ""|].
  destruct (Ascii.eqb_spec d LF) as [->|Hd%Ascii.eqb_neq].
  - rewrite translate_cr_lf. eauto.
  - rewrite translate_cr_other by done. eauto.
Qed.

(** Only the empty text has no line. *)
Lemma readlines_nil s : readlines s = [] → s = "".
Proof.
  intros H%split_lines_nil. destruct s as [|c s]; [done|].
  destruct (Ascii.eqb_spec c CR) as [->|Hc%Ascii.eqb_neq].
  - by destruct (translate_cr s) as [t Ht]; rewrite Ht in H.
  - by rewrite translate_cons in H.
Qed.

Variable m : string.
Hypothesis m_single_line : single_line m = true.

Lemma prefix_translate s :
  String.prefix m (translate_newlines s) = true → String.prefix m s = true.
Proof using m_single_line.
  revert s. induction m as [|a m' IH]; intros s; [by rewrite !prefix_nil|].
  rewrite single_line_cons in m_single_line.
  apply andb_true_iff in m_single_line as [[Ha%negb_true_iff _]%andb_true_iff Hm'].
  destruct s as [|c s]; [done|].
  destruct (Ascii.eqb_spec c CR) as [->|Hc%Ascii.eqb_neq].
  - destruct (translate_cr s) as [t ->]. by rewrite prefix_cons, Ha.
  - rewrite translate_cons by done. rewrite !prefix_cons.
    destruct (Ascii.eqb a c); [by apply IH|done].
Qed.

Lemma contains_translate s :
  contains m (translate_newlines s) = true → contains m s = true.
Proof using m_single_line.
  assert (Hstep : ∀ S c' t, translate_newlines S = String c' t →
            (contains m t = true → contains m S = true) →
            contains m (translate_newlines S) = true → contains m S = true).
  { intros S c' t E Ht. rewrite E, contains_cons, <- E.
    intros [H|H]%orb_true_iff; [|by apply Ht].
    by apply prefix_contains, prefix_translate. }
  induction s as [|c|c d s IHs IHd] using string_ind2; [done|..].
  - destruct (Ascii.eqb_spec c CR) as [->|Hc%Ascii.eqb_neq].
    + apply (Hstep _ LF ""); [done|]. apply contains_cons_r.
    + apply (Hstep _ c ""); [by rewrite translate_cons|]. apply contains_cons_r.
  - destruct (Ascii.eqb_spec c CR) as [->|Hc%Ascii.eqb_neq].
    + destruct (Ascii.eqb_spec d LF) as [->|Hd%Ascii.eqb_neq].
      * apply (Hstep _ LF (translate_newlines s)); [by rewrite translate_cr_lf|].
        intros H. by apply contains_cons_r, contains_cons_r, IHs.
      * apply (Hstep _ LF (translate_newlines (String d s)));
          [by rewrite translate_cr_other|].
        intros H. by apply contains_cons_r, IHd.
    + apply (Hstep _ c (translate_newlines (String d s)));
        [by rewrite translate_cons|].
      intros H. by apply contains_cons_r, IHd.
Qed.

(** A text that does not hold [m] has no line that holds it. *)
Lemma contains_readlines s l :
  In l (readlines s) → contains m l = true → contains m s = true.
Proof using m_single_line.
  intros Hin Hl. apply contains_translate.
  rewrite <- (writelines_split_lines (translate_newlines s)).
  by apply (contains_writelines m l).
Qed.

Lemma prefix_app_nl s :
  String.prefix m (s +:+ nl) = true → String.prefix m s = true.
Proof using m_single_line.
  revert s. induction m as [|a m' IH]; intros s; [by rewrite !prefix_nil|].
  rewrite single_line_cons in m_single_line.
  apply andb_true_iff in m_single_line as [[Ha%negb_true_iff _]%andb_true_iff Hm'].
  destruct s as [|c s].
  - change ("" +:+ nl) with (String LF ""). by rewrite prefix_cons, Ha.
  - change (String c s +:+ nl) with (String c (s +:+ nl)). rewrite !prefix_cons.
    destruct (Ascii.eqb a c); [by apply IH|done].
Qed.

Hypothesis m_not_empty : m ≠ "".

Lemma contains_app_nl s : contains m (s +:+ nl) = true → contains m s = true.
Proof using m_single_line m_not_empty.
  induction s as [|c s IH].
  - change ("" +:+ nl) with (String LF ""). rewrite contains_cons.
    intros [H|H]%orb_true_iff; [|done].
    by apply prefix_contains, (prefix_app_nl "").
  - change (String c s +:+ nl) with (String c (s +:+ nl)). rewrite !contains_cons.
    intros [H|H]%orb_true_iff; apply orb_true_iff.
    + left. by apply (prefix_app_nl (String c s)).
    + right. by apply IH.
Qed.
End contains_facts.

(** ** The patched file, read back *)

Section patched_facts.
Implicit Types (name value l : string) (ls : list string).

Lemma single_line_app s t : single_line (s +:+ t) = single_line s && single_line t.
Proof.
  induction s as [|c s IH]; [done|].
  change (String c s +:+ t) with (String c (s +:+ t)).
  rewrite !single_line_cons, IH. by rewrite andb_assoc.
Qed.

Lemma export_line_nl name value :
  export_line name value = ("export " +:+ name +:+ "=" +:+ value) +:+ nl.
Proof.
  unfold export_line.
  by rewrite (string_app_assoc "export "), (string_app_assoc name),
    (string_app_assoc "=").
Qed.

Lemma terminated_export_line name value :
  single_line name = true → single_line value = true →
  terminated (export_line name value) = true.
Proof.
  intros Hn Hv. rewrite export_line_nl. apply single_line_terminated.
  rewrite (single_line_app "export "), (single_line_app name),
    (single_line_app "="), Hn, Hv. done.
Qed.

Lemma readlines_export_line name value :
  single_line name = true → single_line value = true →
  readlines (export_line name value) = [export_line name value].
Proof.
  intros Hn Hv. rewrite <- (string_app_nil_r (export_line name value)) at 1.
  by rewrite readlines_terminated by (by apply terminated_export_line).
Qed.

Lemma patched_lines_eq name value ls :
  patched_lines name value ls
  = remove_entries name ls
    ++ (if existsb (contains marker) (remove_entries name ls) then []
        else [nl +:+ marker +:+ nl])
    ++ [export_line name value].
Proof.
  unfold patched_lines.
  destruct (existsb (contains marker) (remove_entries name ls)); simpl;
    by rewrite <- ?app_assoc.
Qed.

(** On a file whose lines all end in a terminator, the lines come back as
    they were written. *)
Lemma readback_terminated name value ls :
  Forall (λ l, terminated l = true) ls →
  readlines (writelines (patched_lines name value ls))
  = remove_entries name ls
    ++ (if existsb (contains marker) (remove_entries name ls) then []
        else [nl; marker +:+ nl])
    ++ readlines (export_line name value).
Proof.
  intros Hls. rewrite patched_lines_eq, writelines_app.
  rewrite readlines_writelines_app by (by apply terminated_filter).
  f_equal. destruct (existsb _ _).
  - simpl. by rewrite string_app_nil_r.
  - change (writelines ([nl +:+ marker +:+ nl] ++ [export_line name value]))
      with (nl +:+ (marker +:+ nl) +:+ export_line name value +:+ "").
    rewrite string_app_nil_r.
    by rewrite (readlines_terminated nl), (readlines_terminated (marker +:+ nl)).
Qed.

(** When the sentinel is added, a last line without terminator gets the LF
    that the sentinel block starts with. *)
Lemma readback_open name value ls :
  well_split ls = true →
  existsb (contains marker) (remove_entries name ls) = false →
  readlines (writelines (patched_lines name value ls))
  = close_last (remove_entries name ls)
    ++ [marker +:+ nl] ++ readlines (export_line name value).
Proof.
  intros Hls Hm. rewrite patched_lines_eq, Hm, writelines_app.
  change (writelines ([nl +:+ marker +:+ nl] ++ [export_line name value]))
    with (nl +:+ (marker +:+ nl) +:+ export_line name value +:+ "").
  rewrite string_app_nil_r.
  rewrite readlines_close by (by apply well_split_filter).
  by rewrite (readlines_terminated (marker +:+ nl)).
Qed.

Lemma filter_cons_if {A} (f : A → bool) x (l : list A) :
  List.filter f (x :: l) = if f x then x :: List.filter f l else List.filter f l.
Proof. reflexivity. Qed.

Lemma declaring_remove_entries name ls : declaring name (remove_entries name ls) = [].
Proof.
  unfold declaring, remove_entries. induction ls as [|l ls IH]; [done|].
  simpl. destruct (declares name l) eqn:E; simpl; [done|]. by rewrite E.
Qed.

Lemma declares_nl name : declares name nl = false.
Proof. reflexivity. Qed.

Lemma declares_marker name : declares name (marker +:+ nl) = false.
Proof.
  unfold declares, startswith, pattern.
  change (strip (marker +:+ nl)) with marker.
  change ("export " +:+ name +:+ "=")
    with (String "e"%char ("xport " +:+ name +:+ "=")).
  unfold marker. by rewrite prefix_cons.
Qed.



End patched_facts.

(** After a [set] that went through, every line of the file ends in a
    terminator. *)
Lemma set_env_var_terminated name value w :
  name ≠ "" → mkdir_ok w = true → write_ok w = true →
  Forall (λ l, terminated l = true)
         (file_lines (config (set_env_var name value true w).2)).
Proof.
  intros Hn Hmk Hwr. rewrite set_env_var_ok by done. cbn [snd config file_lines].
  rewrite patched_lines_eq, app_assoc, writelines_app.
  change (writelines [export_line name value]) with (export_line name value +:+ "").
  rewrite string_app_nil_r, export_line_nl, <- string_app_assoc.
  apply readlines_app_nl.
Qed.

(** The lines of the file after a [set] that went through, on a file whose
    lines all end in a terminator: the lines that do not declare [name], the
    sentinel block if no line carried the sentinel text, the new line. *)
Lemma set_env_var_lines name value w :
  name ≠ "" → single_line name = true → single_line value = true →
  Forall (λ l, terminated l = true) (file_lines (config w)) →
  mkdir_ok w = true → write_ok w = true →
  file_lines (config (set_env_var name value true w).2)
  = remove_entries name (file_lines (config w))
    ++ (if existsb (contains marker) (remove_entries name (file_lines (config w)))
        then [] else [nl; marker +:+ nl])
    ++ [export_line name value].
Proof.
  intros Hn Hsn Hsv Ht Hmk Hwr. rewrite set_env_var_ok by done.
  cbn [snd config file_lines].
  by rewrite readback_terminated, readlines_export_line.
Qed.

Lemma set_env_var_flags name value w :
  name ≠ "" → mkdir_ok w = true → write_ok w = true →
  mkdir_ok (set_env_var name value true w).2 = true
  ∧ write_ok (set_env_var name value true w).2 = true.
Proof. intros Hn Hmk Hwr. by rewrite set_env_var_ok. Qed.

(** ** Add or update *)

(** C1, as stated, fails: a second value that goes on after a line
    terminator leaves two lines that declare the name. *)
Lemma set_twice_multiline_value :
  ¬ idempotence_at "FOO" "1" ("2" +:+ nl +:+ "export FOO=3") (fresh Absent).
Proof. unfold idempotence_at. vm_compute. discriminate. Qed.

(** C1 (amended). For a name that is not empty, a name and a second value
    without line terminator, and writes that go through: after
    [set name v1] and [set name v2] the lines of the file that declare
    [name] are exactly the one line [export name=v2]. *)
Theorem set_twice_one_declaration name v1 v2 w :
  name ≠ "" → single_line name = true → single_line v2 = true →
  mkdir_ok w = true → write_ok w = true →
  idempotence_at name v1 v2 w.
Proof.
  intros Hn Hsn Hsv Hmk Hwr. unfold idempotence_at. cbv zeta.
  pose proof (set_env_var_terminated name v1 w Hn Hmk Hwr) as Ht.
  destruct (set_env_var_flags name v1 w Hn Hmk Hwr) as [Hmk1 Hwr1].
  rewrite set_env_var_lines by done.
  unfold declaring. rewrite !List.filter_app.
  fold (declaring name (remove_entries name
          (file_lines (config (set_env_var name v1 true w).2)))).
  rewrite declaring_remove_entries.
  assert (Hnew : List.filter (declares name) [export_line name v2]
                 = [export_line name v2]).
  { by rewrite filter_cons_if, declares_export_line. }
  rewrite Hnew. destruct (existsb _ _); [done|].
  by rewrite !filter_cons_if, declares_nl, declares_marker.
Qed.

Lemma set_twice_one_declaration_witness :
  idempotence_at "FOO" "1" "2" (fresh (Text ("export FOO=0" +:+ nl))).
Proof. by apply set_twice_one_declaration. Defined.


(** The new line is glued to a last line without terminator when the
    sentinel is already in the file. *)
Example set_after_open_last_line :
  file_lines (config (set_env_var "FOO" "9" true
                        (fresh (Text (marker +:+ nl +:+ "alias ll=ls")))).2)
  = [marker +:+ nl; "alias ll=lsexport FOO=9" +:+ nl].
Proof. reflexivity. Qed.



(** C6. On the file [export FOO=1\nexport BAR=2\n], [set FOO 9] succeeds and
    leaves the lines [export BAR=2], a blank line, the sentinel and
    [export FOO=9], each with its terminator. *)
Theorem scenario_foo_bar w :
  config w = Text ("export FOO=1" +:+ nl +:+ "export BAR=2" +:+ nl) →
  mkdir_ok w = true → write_ok w = true →
  (set_env_var "FOO" "9" true w).1 = true
  ∧ config (set_env_var "FOO" "9" true w).2
    = Text ("export BAR=2" +:+ nl +:+ nl +:+ "# Added by ConfigureMacKeys" +:+ nl
            +:+ "export FOO=9" +:+ nl)
  ∧ file_lines (config (set_env_var "FOO" "9" true w).2)
    = ["export BAR=2" +:+ nl; nl; "# Added by ConfigureMacKeys" +:+ nl;
       "export FOO=9" +:+ nl].
Proof.
  intros Hcfg Hmk Hwr. rewrite set_env_var_ok by done.
  cbn [fst snd config]. rewrite Hcfg. by vm_compute.
Qed.

Lemma scenario_foo_bar_witness :
  file_lines (config (set_env_var "FOO" "9" true
    (fresh (Text ("export FOO=1" +:+ nl +:+ "export BAR=2" +:+ nl)))).2)
  = ["export BAR=2" +:+ nl; nl; "# Added by ConfigureMacKeys" +:+ nl;
     "export FOO=9" +:+ nl].
Proof.
  exact (proj2 (proj2 (scenario_foo_bar
    (fresh (Text ("export FOO=1" +:+ nl +:+ "export BAR=2" +:+ nl)))
    eq_refl eq_refl eq_refl))).
Defined.

(** C7. With an empty name [set_env_var] prints its error and returns
    [False]; it does nothing else: no [exists], no read, no [cp], no
    [mkdir], no write, whatever the value and the [permanent] flag. *)
Theorem set_empty_name value permanent w :
  set_env_var "" value permanent w = (false, log (EvPrint MsgErrEmptyName) w)
  ∧ new_events w (set_env_var "" value permanent w).2 = [EvPrint MsgErrEmptyName]
  ∧ existsb is_file_access (new_events w (set_env_var "" value permanent w).2) = false
  ∧ config (set_env_var "" value permanent w).2 = config w
  ∧ backup (set_env_var "" value permanent w).2 = backup w.
Proof.
  assert (H : set_env_var "" value permanent w
              = (false, log (EvPrint MsgErrEmptyName) w)) by reflexivity.
  rewrite H. cbn [snd].
  assert (Hev : new_events w (log (EvPrint MsgErrEmptyName) w)
                = [EvPrint MsgErrEmptyName]) by (by apply new_events_app).
  by rewrite Hev.
Qed.

(** ** Remove *)

Lemma remove_entries_length name ls :
  length (remove_entries name ls) + length (declaring name ls) = length ls.
Proof.
  unfold remove_entries, declaring. induction ls as [|l ls IH]; [done|].
  rewrite !filter_cons_if. destruct (declares name l); simpl; lia.
Qed.

Lemma remove_entries_id name ls : declaring name ls = [] → remove_entries name ls = ls.
Proof.
  unfold remove_entries, declaring. induction ls as [|l ls IH]; [done|].
  rewrite !filter_cons_if. destruct (declares name l); [done|].
  intros H. simpl. by rewrite IH.
Qed.

Lemma get_shell_config_content_run w :
  get_shell_config_content w
  = (file_lines (config w), log_all (read_events (config w)) w).
Proof. destruct w as [cfg bk env cp mk wr tr]. by destruct cfg; run_op. Qed.

(** [backup_config_file] with the warning its callers print. *)
Lemma backup_config_file_run w :
  (backed ← backup_config_file;
   if negb backed then print MsgWarnBackup else mret ()) w
  = ((), World (config w) (backup_after w) (environ w) (cp_ok w) (mkdir_ok w)
               (write_ok w) (trace w ++ backup_events (config w) (cp_ok w))).
Proof. destruct w as [cfg bk env cp mk wr tr]. by destruct cfg, cp; run_op. Qed.

Lemma remove_env_var_unfold name w :
  remove_env_var name w
  = let '(lines, w1) := get_shell_config_content w in
    if bool_decide (lines = []) then (false, log (EvPrint MsgNoConfig) w1)
    else
      let '(_, w2) := (backed ← backup_config_file;
                       if negb backed then print MsgWarnBackup else mret ()) w1 in
      if length (remove_entries name lines) =? length lines
      then (false, log (EvPrint (MsgNotFound name)) w2)
      else
        let '(written, w3) := open_write (remove_entries name lines) w2 in
        if negb written then (false, log (EvPrint MsgErrWrite) w3)
        else
          let w4 := log (EvPrint (MsgRemoved name)) w3 in
          if bool_decide (is_Some (environ w4 !! name))
          then (true, log (EvPrint (MsgRemovedSession name)) (env_del name w4).2)
          else (true, w4).
Proof.
  unfold remove_env_var. cbv [mbind M_bind].
  destruct (get_shell_config_content w) as [lines w1].
  destruct (bool_decide (lines = [])); [done|].
  destruct (backup_config_file w1) as [backed w2'].
  destruct (negb backed); cbv [print mret M_ret];
    (destruct (_ =? _); [done|]);
    (destruct (open_write _ _) as [[] w3]; cbn [negb]; [|done]);
    cbv [env_has]; by destruct (bool_decide _).
Qed.

(** Nothing was read: [remove_env_var] stops after
    [get_shell_config_content]. *)
Lemma remove_env_var_no_lines name w :
  file_lines (config w) = [] →
  remove_env_var name w
  = (false, log_all (read_events (config w) ++ [EvPrint MsgNoConfig]) w).
Proof.
  intros H. rewrite remove_env_var_unfold, get_shell_config_content_run, H.
  destruct w. run_op. done.
Qed.

(** Lines were read and none declares [name]: the backup is tried, nothing
    is written. *)
Lemma remove_env_var_not_found name w :
  file_lines (config w) ≠ [] → declaring name (file_lines (config w)) = [] →
  remove_env_var name w
  = (false,
     World (config w) (backup_after w) (environ w) (cp_ok w) (mkdir_ok w)
           (write_ok w)
           (trace w ++ read_events (config w)
              ++ backup_events (config w) (cp_ok w)
              ++ [EvPrint (MsgNotFound name)])).
Proof.
  intros Hne Hno.
  rewrite remove_env_var_unfold, get_shell_config_content_run.
  rewrite bool_decide_false by done. rewrite backup_config_file_run.
  rewrite (remove_entries_id name _ Hno), Nat.eqb_refl.
  destruct w. run_op. done.
Qed.

(** Some line declares [name] and the write goes through: the file is the
    list of lines without the declaring ones. *)
Lemma remove_env_var_found name w :
  declaring name (file_lines (config w)) ≠ [] → write_ok w = true →
  (remove_env_var name w).1 = true
  ∧ config (remove_env_var name w).2
    = Text (writelines (remove_entries name (file_lines (config w)))).
Proof.
  intros Hd Hwr.
  rewrite remove_env_var_unfold, get_shell_config_content_run.
  assert (Hne : file_lines (config w) ≠ []) by (by destruct (file_lines (config w))).
  rewrite bool_decide_false by done. rewrite backup_config_file_run.
  assert (Hlen : (length (remove_entries name (file_lines (config w)))
                  =? length (file_lines (config w))) = false).
  { apply Nat.eqb_neq. pose proof (remove_entries_length name (file_lines (config w))).
    destruct (declaring name (file_lines (config w))); [done|simpl in *; lia]. }
  rewrite Hlen. cbv [open_write]. cbn [write_ok log_all]. rewrite Hwr. cbn [negb].
  cbv zeta. by destruct (bool_decide _).
Qed.

(** C3. [remove name] on a file with exactly one line that declares [name]
    succeeds (the write going through) and leaves no such line; on a file
    that is not empty and has no such line it fails and does not write: the
    file is what it was. *)
Theorem remove_correct name w1 s1 w2 s2 :
  config w1 = Text s1 → count_declaring name (readlines s1) = 1 →
  write_ok w1 = true →
  config w2 = Text s2 → s2 ≠ "" → count_declaring name (readlines s2) = 0 →
  ((remove_env_var name w1).1 = true
   ∧ count_declaring name (file_lines (config (remove_env_var name w1).2)) = 0)
  ∧ ((remove_env_var name w2).1 = false
     ∧ config (remove_env_var name w2).2 = Text s2
     ∧ existsb is_write (new_events w2 (remove_env_var name w2).2) = false).
Proof.
  intros Hc1 Hone Hwr Hc2 Hne Hnone. split.
  - destruct (remove_env_var_found name w1) as [-> ->]; [|done|].
    { rewrite Hc1. cbn [file_lines]. unfold count_declaring in Hone.
      fold (declaring name (readlines s1)) in Hone.
      by destruct (declaring name (readlines s1)). }
    split; [done|]. rewrite Hc1. cbn [file_lines].
    rewrite readlines_writelines
      by apply well_split_filter, readlines_well_split.
    unfold count_declaring. fold (declaring name (remove_entries name (readlines s1))).
    by rewrite declaring_remove_entries.
  - rewrite remove_env_var_not_found; rewrite ?Hc2; cbn [file_lines].
    + cbn [fst snd config]. split; [done|]. split; [done|].
      erewrite new_events_app by (cbn [trace]; reflexivity).
      cbn [read_events backup_events]. by destruct (cp_ok w2).
    + by intros H%readlines_nil.
    + unfold count_declaring in Hnone. fold (declaring name (readlines s2)) in Hnone.
      by destruct (declaring name (readlines s2)).
Qed.

Lemma remove_correct_witness :
  ((remove_env_var "FOO"
      (fresh (Text ("export FOO=1" +:+ nl +:+ "export BAR=2" +:+ nl)))).1 = true
   ∧ count_declaring "FOO"
       (file_lines (config (remove_env_var "FOO"
          (fresh (Text ("export FOO=1" +:+ nl +:+ "export BAR=2" +:+ nl)))).2)) = 0)
  ∧ ((remove_env_var "FOO" (fresh (Text ("export BAR=2" +:+ nl)))).1 = false
     ∧ config (remove_env_var "FOO" (fresh (Text ("export BAR=2" +:+ nl)))).2
       = Text ("export BAR=2" +:+ nl)
     ∧ existsb is_write
         (new_events (fresh (Text ("export BAR=2" +:+ nl)))
            (remove_env_var "FOO" (fresh (Text ("export BAR=2" +:+ nl)))).2)
       = false).
Proof.
  apply (remove_correct "FOO"
           (fresh (Text ("export FOO=1" +:+ nl +:+ "export BAR=2" +:+ nl)))
           ("export FOO=1" +:+ nl +:+ "export BAR=2" +:+ nl)
           (fresh (Text ("export BAR=2" +:+ nl))) ("export BAR=2" +:+ nl));
    try reflexivity.
  discriminate.
Defined.

(** C8. When the config file is absent or has no line, [remove_env_var]
    returns [False] right after [get_shell_config_content]: no [cp] is run,
    the backup file is what it was, and nothing is written. *)
Theorem remove_without_lines name w :
  config w = Absent ∨ (∃ s, config w = Text s ∧ readlines s = []) →
  (remove_env_var name w).1 = false
  ∧ config (remove_env_var name w).2 = config w
  ∧ backup (remove_env_var name w).2 = backup w
  ∧ new_events w (remove_env_var name w).2
    = read_events (config w) ++ [EvPrint MsgNoConfig]
  ∧ existsb is_backup (new_events w (remove_env_var name w).2) = false
  ∧ existsb is_write (new_events w (remove_env_var name w).2) = false.
Proof.
  intros H.
  assert (Hl : file_lines (config w) = []).
  { destruct H as [->|(s & -> & Hs)]; [done|]. done. }
  rewrite remove_env_var_no_lines by done. cbn [fst snd log_all config backup].
  rewrite (new_events_app w _ (read_events (config w) ++ [EvPrint MsgNoConfig]))
    by done.
  by destruct H as [->|(s & -> & Hs)].
Qed.

Lemma remove_without_lines_witness :
  (remove_env_var "FOO" (fresh Absent)).1 = false
  ∧ backup (remove_env_var "FOO" (fresh (Text ""))).2 = Absent.
Proof.
  split.
  - apply (remove_without_lines "FOO" (fresh Absent)). by left.
  - apply (remove_without_lines "FOO" (fresh (Text ""))). right. by exists "".
Defined.

(** C10. [remove_env_var] has no check of the name. With the empty name, on
    a file that has lines, none of them starting with [export =] once
    trimmed, it reads the file, runs the backup, and returns [False] with
    the not-found message; it never prints the empty-name error of
    [set_env_var]. *)
Theorem remove_empty_name_not_rejected w s :
  config w = Text s → s ≠ "" → declaring "" (readlines s) = [] →
  pattern "" = "export ="
  ∧ (remove_env_var "" w).1 = false
  ∧ new_events w (remove_env_var "" w).2
    = [EvExists; EvOpenRead; EvExists; EvCp]
      ++ (if cp_ok w then [EvPrint MsgBackupCreated]
          else [EvPrint MsgErrBackup; EvPrint MsgWarnBackup])
      ++ [EvPrint (MsgNotFound "")]
  ∧ ¬ In (EvPrint MsgErrEmptyName) (new_events w (remove_env_var "" w).2)
  ∧ backup (remove_env_var "" w).2 = (if cp_ok w then Text s else backup w)
  ∧ config (remove_env_var "" w).2 = Text s.
Proof.
  intros Hcfg Hne Hno. split; [done|].
  rewrite remove_env_var_not_found; rewrite ?Hcfg; cbn [file_lines]; try done.
  - cbn [fst snd config backup].
    erewrite new_events_app by (cbn [trace]; reflexivity).
    unfold backup_after. rewrite Hcfg. cbn [read_events backup_events].
    destruct (cp_ok w); cbn [app In]; intuition congruence.
  - by intros H%readlines_nil.
Qed.

Lemma remove_empty_name_not_rejected_witness :
  (remove_env_var "" (fresh (Text ("export BAR=2" +:+ nl)))).1 = false
  ∧ new_events (fresh (Text ("export BAR=2" +:+ nl)))
      (remove_env_var "" (fresh (Text ("export BAR=2" +:+ nl)))).2
    = [EvExists; EvOpenRead; EvExists; EvCp; EvPrint MsgBackupCreated;
       EvPrint (MsgNotFound "")].
Proof.
  destruct (remove_empty_name_not_rejected
              (fresh (Text ("export BAR=2" +:+ nl))) ("export BAR=2" +:+ nl))
    as (_ & H1 & H2 & _); [reflexivity|discriminate|reflexivity|].
  split; [exact H1|exact H2].
Defined.

(** ** A file that cannot be read *)

(** [remove_env_var] on a file that cannot be read stops: nothing is
    written. *)
Lemma remove_on_unreadable name w :
  config w = Unreadable →
  remove_env_var name w
  = (false, log_all [EvExists; EvOpenRead; EvPrint MsgErrRead;
                     EvPrint MsgNoConfig] w).
Proof. intros H. rewrite remove_env_var_no_lines; by rewrite H. Qed.

(** [set_env_var] on a file that cannot be read goes on as on an absent
    file. *)
Lemma set_env_var_unreadable name value w :
  config w = Unreadable → name ≠ "" → mkdir_ok w = true → write_ok w = true →
  (set_env_var name value true w).1 = true
  ∧ config (set_env_var name value true w).2
    = Text (writelines [nl +:+ marker +:+ nl; export_line name value]).
Proof. intros H Hn Hmk Hwr. rewrite set_env_var_ok by done. by rewrite H. Qed.

(** C5 fails for [set_env_var]: on a file that exists and cannot be read,
    [set FOO 1] prints the read error, goes on with no lines, overwrites the
    file with the sentinel block and the new line, and returns [True]. *)
Theorem set_on_unreadable_overwrites :
  set_env_var "FOO" "1" true (World Unreadable Absent ∅ true true true [])
  = (true,
     World (Text (nl +:+ "# Added by ConfigureMacKeys" +:+ nl
                  +:+ "export FOO=1" +:+ nl))
           Unreadable ∅ true true true
           [EvExists; EvOpenRead; EvPrint MsgErrRead; EvExists; EvCp;
            EvPrint MsgBackupCreated; EvMkdir; EvOpenWrite;
            EvPrint (MsgAdded "FOO")]).
Proof. reflexivity. Qed.

(** ** The sentinel comment *)

Section marker_facts.
Implicit Types (name value l : string) (ls : list string).

Lemma Forall_filter_keep {A} (P : A → Prop) (f : A → bool) (l : list A) :
  Forall P l → Forall P (List.filter f l).
Proof.
  induction 1 as [|x l Hx _ IH]; [constructor|]. simpl.
  destruct (f x); [by constructor|done].
Qed.

Lemma filter_none {A} (f : A → bool) (l : list A) :
  Forall (λ x, f x = false) l ↔ List.filter f l = [].
Proof.
  induction l as [|x l IH]; [by split; [|constructor]|].
  rewrite filter_cons_if, Forall_cons, IH. destruct (f x); intuition congruence.
Qed.

Lemma existsb_none {A} (f : A → bool) (l : list A) :
  Forall (λ x, f x = false) l ↔ existsb f l = false.
Proof.
  induction l as [|x l IH]; [by split; [|constructor]|].
  simpl. rewrite Forall_cons, IH, orb_false_iff. done.
Qed.

Lemma no_marker_readlines s :
  contains marker s = false →
  Forall (λ l, contains marker l = false) (readlines s).
Proof.
  intros Hs. apply List.Forall_forall. intros l Hl.
  destruct (contains marker l) eqn:E; [|done].
  by rewrite (contains_readlines marker eq_refl s l Hl E) in Hs.
Qed.

Lemma no_marker_app_nl l :
  contains marker l = false → contains marker (l +:+ nl) = false.
Proof.
  intros Hl. destruct (contains marker (l +:+ nl)) eqn:E; [|done].
  by rewrite (contains_app_nl marker eq_refl) in Hl.
Qed.

Lemma close_last_no_marker ls :
  Forall (λ l, contains marker l = false) ls →
  Forall (λ l, contains marker l = false) (close_last ls).
Proof.
  induction 1 as [|l ls Hl Hls IH]; [by repeat constructor|].
  destruct ls as [|l' ls].
  - simpl. destruct (terminated l); repeat constructor; try done.
    by apply no_marker_app_nl.
  - change (close_last (l :: l' :: ls)) with (l :: close_last (l' :: ls)).
    by constructor.
Qed.

Lemma file_lines_well_split f : well_split (file_lines f) = true.
Proof. destruct f; try done. apply readlines_well_split. Qed.

Lemma readlines_export_line_terminated name value :
  Forall (λ l, terminated l = true) (readlines (export_line name value)).
Proof. rewrite export_line_nl. apply readlines_app_nl. Qed.

(** The first [set] on a file without the sentinel text puts the sentinel
    in. *)
Lemma set_env_var_marks name value w :
  count_marker_text (file_lines (config w)) = 0 →
  name ≠ "" → contains marker (export_line name value) = false →
  mkdir_ok w = true → write_ok w = true →
  marked (file_lines (config (set_env_var name value true w).2)).
Proof.
  intros Hcount Hn Hv Hmk Hwr. rewrite set_env_var_ok by done.
  cbn [snd config file_lines].
  assert (Hno : Forall (λ l, contains marker l = false)
                  (remove_entries name (file_lines (config w)))).
  { apply Forall_filter_keep, filter_none. unfold count_marker_text in Hcount.
    by destruct (List.filter _ _). }
  rewrite readback_open;
    [|apply file_lines_well_split|by apply existsb_none].
  split.
  - apply Forall_app. split.
    + apply close_last_terminated, well_split_filter, file_lines_well_split.
    + constructor; [done|]. apply readlines_export_line_terminated.
  - eexists _, _. split; [reflexivity|]. apply Forall_app. split.
    + by apply close_last_no_marker.
    + by apply no_marker_readlines.
Qed.

(** Every later [set] keeps it, and adds no other. *)
Lemma set_env_var_keeps_mark name value w :
  marked (file_lines (config w)) →
  name ≠ "" → contains marker (export_line name value) = false →
  mkdir_ok w = true → write_ok w = true →
  marked (file_lines (config (set_env_var name value true w).2)).
Proof.
  intros [Ht (l1 & l2 & Hls & Hno)] Hn Hv Hmk Hwr.
  rewrite set_env_var_ok by done. cbn [snd config file_lines].
  rewrite readback_terminated by done.
  assert (Hkept : remove_entries name (file_lines (config w))
                  = remove_entries name l1
                    ++ (marker +:+ nl) :: remove_entries name l2).
  { rewrite Hls. unfold remove_entries.
    by rewrite List.filter_app, filter_cons_if, declares_marker. }
  assert (Hex : existsb (contains marker)
                  (remove_entries name (file_lines (config w))) = true).
  { rewrite Hkept, existsb_app. apply orb_true_iff. right.
    apply orb_true_iff. by left. }
  rewrite Hex. cbn [app]. apply Forall_app in Hno as [Hno1 Hno2]. split.
  - apply Forall_app. split; [by apply terminated_filter|].
    apply readlines_export_line_terminated.
  - exists (remove_entries name l1),
      (remove_entries name l2 ++ readlines (export_line name value)).
    split; [by rewrite Hkept, <- app_assoc|].
    rewrite !Forall_app. split_and!; try by apply Forall_filter_keep.
    by apply no_marker_readlines.
Qed.

Lemma set_all_keeps_mark calls w :
  marked (file_lines (config w)) → forallb plain_call calls = true →
  mkdir_ok w = true → write_ok w = true →
  marked (file_lines (config (set_all calls w))).
Proof.
  revert w. induction calls as [|[name value] calls IH]; intros w Hw Hc Hmk Hwr.
  - done.
  - simpl in Hc. apply andb_true_iff in Hc as [Hcall Hc].
    apply andb_true_iff in Hcall as [Hn%negb_true_iff Hv%negb_true_iff].
    apply String.eqb_neq in Hn. cbn [fst snd] in Hn, Hv.
    destruct (set_env_var_flags name value w Hn Hmk Hwr) as [Hmk' Hwr'].
    cbn [set_all]. apply IH; try done. by apply set_env_var_keeps_mark.
Qed.

Lemma marked_counts ls :
  marked ls → count_marker_text ls = 1 ∧ count_marker_lines ls = 1.
Proof.
  intros [_ (l1 & l2 & -> & [Hno1 Hno2]%Forall_app)].
  unfold count_marker_text, count_marker_lines.
  rewrite !List.filter_app, !filter_cons_if, !length_app.
  change (contains marker (marker +:+ nl)) with true.
  change (String.eqb (marker +:+ nl) (marker +:+ nl)) with true.
  assert (Heq : ∀ ls', Forall (λ l, contains marker l = false) ls' →
            List.filter (λ line, String.eqb line (marker +:+ nl)) ls' = []).
  { intros ls' H. apply filter_none. eapply Forall_impl; [exact H|].
    intros l Hl. cbv beta.
    destruct (String.eqb_spec l (marker +:+ nl)) as [->|]; [|done].
    by vm_compute in Hl. }
  apply filter_none in Hno1 as Hn1. apply filter_none in Hno2 as Hn2.
  rewrite Hn1, Hn2, !Heq by done. done.
Qed.
End marker_facts.

(** C2, as stated, fails: a value that goes on after a line terminator with
    the sentinel text leaves two sentinel lines after one call. *)
Lemma marker_twice_multiline_value :
  count_marker_text (file_lines (config (fresh Absent))) = 0
  ∧ ¬ marker_singular_at [("FOO", "1" +:+ nl +:+ marker)] (fresh Absent)
  ∧ count_marker_lines
      (file_lines (config (set_all [("FOO", "1" +:+ nl +:+ marker)] (fresh Absent))))
    = 2.
Proof. unfold marker_singular_at. vm_compute. repeat split. discriminate. Qed.

(** C2 (amended). For one or more calls of [set], each with a name that is
    not empty and a line [export name=value] that does not hold the sentinel
    text, on a file no line of which holds the sentinel text, the writes
    going through: after the calls exactly one line of the file holds the
    sentinel text, and it is the sentinel line. *)
Theorem marker_singularity calls w :
  calls ≠ [] → forallb plain_call calls = true →
  count_marker_text (file_lines (config w)) = 0 →
  mkdir_ok w = true → write_ok w = true →
  marker_singular_at calls w
  ∧ count_marker_lines (file_lines (config (set_all calls w))) = 1.
Proof.
  intros Hne Hc Hcount Hmk Hwr. unfold marker_singular_at. apply marked_counts.
  destruct calls as [|[name value] calls]; [done|].
  simpl in Hc. apply andb_true_iff in Hc as [Hcall Hc].
  apply andb_true_iff in Hcall as [Hn%negb_true_iff Hv%negb_true_iff].
  apply String.eqb_neq in Hn. cbn [fst snd] in Hn, Hv.
  destruct (set_env_var_flags name value w Hn Hmk Hwr) as [Hmk' Hwr'].
  cbn [set_all]. apply set_all_keeps_mark; try done.
  by apply set_env_var_marks.
Qed.

Lemma marker_singularity_witness :
  marker_singular_at [("FOO", "1"); ("BAR", "2"); ("FOO", "3")]
    (fresh (Text "alias ll=ls"))
  ∧ count_marker_lines
      (file_lines (config (set_all [("FOO", "1"); ("BAR", "2"); ("FOO", "3")]
                             (fresh (Text "alias ll=ls"))))) = 1.
Proof. by apply marker_singularity. Defined.

(** ** Listing *)

Section list_facts.
Implicit Types (d env : gmap string string) (k v : string).

Lemma for_each_print {A} (f : A → message) (l : list A) w :
  for_each l (λ x, print (f x)) w = ((), log_all ((λ x, EvPrint (f x)) <$> l) w).
Proof.
  revert w. induction l as [|x l IH]; intros w.
  - destruct w. cbv [for_each mret M_ret log_all fmap list_fmap]. cbn.
    by rewrite app_nil_r.
  - cbn [for_each]. cbv [mbind M_bind print]. rewrite IH.
    destruct w. cbv [log log_all]. cbn. by rewrite <- app_assoc.
Qed.

Lemma printed_entries_fmap {A} (g : A → string * string) (l : list A) :
  printed_entries ((λ x, EvPrint (MsgEntry (g x).1 (g x).2)) <$> l) = g <$> l.
Proof.
  induction l as [|x l IH]; [done|]. cbn. unfold printed_entries in IH.
  rewrite IH. by destruct (g x).
Qed.

Lemma elem_of_sorted_keys d k : k ∈ sorted_keys d ↔ is_Some (d !! k).
Proof.
  unfold sorted_keys. rewrite merge_sort_Permutation, list_elem_of_fmap. split.
  - intros ([k' v] & -> & H%elem_of_map_to_list). by exists v.
  - intros [v H]. exists (k, v). split; [done|]. by apply elem_of_map_to_list.
Qed.

Lemma lookup_filtered_vars fp env k v :
  filtered_vars fp env !! k = Some v ↔ env !! k = Some v ∧ matches fp k.
Proof.
  destruct fp as [[|c p]|]; simpl.
  - rewrite contains_nil. tauto.
  - by rewrite map_lookup_filter_Some.
  - tauto.
Qed.

Lemma elem_of_listed fp env k v :
  (k, v) ∈ listed fp env ↔ env !! k = Some v ∧ matches fp k.
Proof.
  rewrite <- lookup_filtered_vars. unfold listed.
  rewrite list_elem_of_fmap. split.
  - intros (key & [= -> ->] & [v' Hv]%elem_of_sorted_keys).
    by rewrite (lookup_total_correct _ _ _ Hv).
  - intros H. exists k. split.
    + by rewrite (lookup_total_correct _ _ _ H).
    + apply elem_of_sorted_keys. by exists v.
Qed.

Lemma listed_keys fp env : (listed fp env).*1 = sorted_keys (filtered_vars fp env).
Proof.
  unfold listed. rewrite <- list_fmap_compose.
  induction (sorted_keys _) as [|k l IH]; [done|]. cbn. by rewrite IH.
Qed.

Lemma sorted_keys_nil d : d = ∅ → sorted_keys d = [].
Proof. intros ->. unfold sorted_keys. by rewrite map_to_list_empty. Qed.

Lemma list_env_vars_run fp w :
  list_env_vars fp w
  = ((), log_all
           (if decide (filtered_vars fp (environ w) = ∅)
            then [EvPrint (MsgNoVars fp)]
            else [EvPrint (MsgFound (size (filtered_vars fp (environ w))));
                  EvPrint MsgRule]
                 ++ ((λ kv, EvPrint (MsgEntry kv.1 (display_value kv.2)))
                       <$> listed fp (environ w))) w).
Proof.
  unfold list_env_vars. cbv [mbind M_bind get_current_env_vars].
  destruct (decide (filtered_vars fp (environ w) = ∅)) as [He|Hne].
  - by destruct w.
  - unfold print at 1 2. cbv beta iota zeta.
    rewrite (for_each_print (λ key, MsgEntry key (display_value
               (filtered_vars fp (environ w) !!! key)))).
    unfold listed.
    rewrite <- list_fmap_compose. destruct w. cbv [log log_all]. cbn.
    by rewrite <- !app_assoc.
Qed.
End list_facts.

(** [list_env_vars] prints one [key=value] line (the value cut for display
    when longer than 100) for each pair it goes through; these are exactly
    the pairs of the environment whose key passes the test of line 33 (all
    pairs without filter, or with the empty one), with the keys in
    ascending order and none twice; nothing else changes. *)
Theorem list_env_vars_correct filter_pattern w :
  printed_entries (new_events w (list_env_vars filter_pattern w).2)
  = (λ kv, (kv.1, display_value kv.2)) <$> listed filter_pattern (environ w)
  ∧ (∀ k v, (k, v) ∈ listed filter_pattern (environ w)
            ↔ environ w !! k = Some v ∧ matches filter_pattern k)
  ∧ StronglySorted String.le (listed filter_pattern (environ w)).*1
  ∧ NoDup (listed filter_pattern (environ w)).*1
  ∧ environ (list_env_vars filter_pattern w).2 = environ w
  ∧ config (list_env_vars filter_pattern w).2 = config w
  ∧ backup (list_env_vars filter_pattern w).2 = backup w.
Proof.
  rewrite list_env_vars_run. cbn [snd log_all environ config backup].
  erewrite new_events_app by (cbn [trace]; reflexivity).
  split_and!; try done.
  - destruct (decide _) as [He|Hne].
    + unfold listed. by rewrite (sorted_keys_nil _ He).
    + cbn [app printed_entries omap list_omap].
      apply (printed_entries_fmap (λ kv, (kv.1, display_value kv.2))).
  - apply elem_of_listed.
  - rewrite listed_keys. apply StronglySorted_merge_sort; apply _.
  - rewrite listed_keys. unfold sorted_keys.
    rewrite merge_sort_Permutation. apply NoDup_fst_map_to_list.
Qed.

(** * Further properties *)

(** ** Every run of [set_env_var] *)

(** A permanent [set] with a name: what it returns and the world it
    leaves, for every outcome of [mkdir] and of the write. *)
Lemma set_env_var_run name value w :
  name ≠ "" →
  set_env_var name value true w
  = if mkdir_ok w then
      if write_ok w then
        (true,
         World (Text (writelines (patched_lines name value (file_lines (config w)))))
               (backup_after w) (environ w) (cp_ok w) true true
               (trace (prepared w) ++ [EvMkdir; EvOpenWrite; EvPrint (MsgAdded name)]))
      else (false, log_all [EvMkdir; EvOpenWrite; EvPrint MsgErrWrite] (prepared w))
    else (false, log_all [EvMkdir; EvPrint MsgErrWrite] (prepared w)).
Proof.
  intros Hname. destruct w as [cfg bk env cp mk wr tr]. unfold set_env_var.
  rewrite bool_decide_false by done.
  destruct cfg, cp, mk, wr; unfold prepared; run_op; reflexivity.
Qed.

Lemma set_env_var_temp name value w :
  name ≠ "" →
  set_env_var name value false w = (true, log (EvPrint (MsgTempHowTo name value)) w).
Proof. intros Hname. unfold set_env_var. by rewrite bool_decide_false. Qed.

Lemma set_env_var_noname value permanent w :
  set_env_var "" value permanent w = (false, log (EvPrint MsgErrEmptyName) w).
Proof. reflexivity. Qed.

Lemma new_events_prepared w evs w' :
  trace w' = trace (prepared w) ++ evs →
  new_events w w' = read_events (config w) ++ backup_events (config w) (cp_ok w) ++ evs.
Proof.
  intros H. apply new_events_app. rewrite H. cbn [prepared trace].
  by rewrite <- !app_assoc.
Qed.

(** X1. With [permanent=False] and a name, [set_env_var] only prints how to
    export the variable by hand and returns [True]: no file is looked at,
    read, copied or written, and the environment is left alone. *)
Theorem set_temp_touches_nothing name value w :
  name ≠ "" →
  (set_env_var name value false w).1 = true
  ∧ new_events w (set_env_var name value false w).2
    = [EvPrint (MsgTempHowTo name value)]
  ∧ config (set_env_var name value false w).2 = config w
  ∧ backup (set_env_var name value false w).2 = backup w
  ∧ environ (set_env_var name value false w).2 = environ w.
Proof.
  intros Hname. rewrite set_env_var_temp by done. cbn [fst snd].
  split_and!; try done. by apply new_events_app.
Qed.

Lemma set_temp_touches_nothing_witness :
  new_events (fresh Unreadable) (set_env_var "FOO" "1" false (fresh Unreadable)).2
  = [EvPrint (MsgTempHowTo "FOO" "1")].
Proof.
  by destruct (set_temp_touches_nothing "FOO" "1" (fresh Unreadable))
    as (_ & H & _).
Defined.

(** X2. [set_env_var] returns [True] exactly when the name is not empty
    and, for a permanent set, [mkdir] and the write both go through: a file
    that cannot be read and a backup that fails do not make it fail. *)
Theorem set_env_var_result name value permanent w :
  (set_env_var name value permanent w).1
  = negb (String.eqb name "") && (negb permanent || (mkdir_ok w && write_ok w)).
Proof.
  destruct (String.eqb_spec name "") as [->|Hname]; [done|].
  destruct permanent.
  - rewrite set_env_var_run by done. by destruct (mkdir_ok w), (write_ok w).
  - by rewrite set_env_var_temp.
Qed.

(** X3. When the write of a permanent [set] fails ([mkdir] or [open]
    raises), the config file is what it was, and the backup has been made
    all the same: it is the config file if that exists and [cp] works.
    When [mkdir] raises the file is not even opened for writing. *)
Theorem set_failed_write_keeps_file name value w :
  name ≠ "" → mkdir_ok w && write_ok w = false →
  (set_env_var name value true w).1 = false
  ∧ config (set_env_var name value true w).2 = config w
  ∧ backup (set_env_var name value true w).2 = backup_after w
  ∧ (mkdir_ok w = false →
     existsb is_write (new_events w (set_env_var name value true w).2) = false).
Proof.
  intros Hname Hfail. rewrite set_env_var_run by done.
  destruct (mkdir_ok w) eqn:Hmk, (write_ok w) eqn:Hwr; try done;
    cbn [fst snd log_all prepared config backup]; split_and!; try done.
  all: intros _;
    erewrite new_events_prepared by (cbn [log_all trace]; reflexivity);
    by destruct (config w), (cp_ok w).
Qed.

Lemma set_failed_write_keeps_file_witness :
  config (set_env_var "FOO" "1" true
            (World (Text "a") Absent ∅ true true false [])).2 = Text "a"
  ∧ backup (set_env_var "FOO" "1" true
              (World (Text "a") Absent ∅ true true false [])).2 = Text "a".
Proof.
  destruct (set_failed_write_keeps_file "FOO" "1"
              (World (Text "a") Absent ∅ true true false []))
    as (_ & H1 & H2 & _); [done|reflexivity|].
  split; [exact H1|exact H2].
Defined.

(** X4. [set_env_var] never changes the process environment, whatever the
    arguments and the outcome: the variable is not set in the running
    process. *)
Theorem set_env_var_keeps_environ name value permanent w :
  environ (set_env_var name value permanent w).2 = environ w.
Proof.
  destruct (String.eqb_spec name "") as [->|Hname]; [done|].
  destruct permanent.
  - rewrite set_env_var_run by done. by destruct (mkdir_ok w), (write_ok w).
  - by rewrite set_env_var_temp.
Qed.

(** X5. A permanent [set] on an absent file, the write going through,
    creates the file as a blank line, the sentinel and the new line; no
    [cp] is run and the backup file is left as it was. *)
Theorem set_creates_file name value w :
  config w = Absent → name ≠ "" → mkdir_ok w = true → write_ok w = true →
  config (set_env_var name value true w).2
  = Text (nl +:+ marker +:+ nl +:+ export_line name value)
  ∧ backup (set_env_var name value true w).2 = backup w
  ∧ new_events w (set_env_var name value true w).2
    = [EvExists; EvExists; EvMkdir; EvOpenWrite; EvPrint (MsgAdded name)].
Proof.
  intros Hcfg Hname Hmk Hwr. rewrite set_env_var_run, Hmk, Hwr by done.
  cbn [snd config backup]. unfold backup_after. rewrite Hcfg.
  split_and!; try done.
  - cbn [file_lines]. unfold patched_lines, remove_entries.
    cbn [List.filter existsb negb app writelines foldr].
    by rewrite string_app_nil_r, !string_app_assoc.
  - erewrite new_events_prepared by (cbn [trace]; reflexivity). by rewrite Hcfg.
Qed.

Lemma set_creates_file_witness :
  config (set_env_var "FOO" "1" true (fresh Absent)).2
  = Text (nl +:+ marker +:+ nl +:+ export_line "FOO" "1").
Proof.
  by destruct (set_creates_file "FOO" "1" (fresh Absent)) as (H & _).
Defined.

(** ** The text and the lines after [set_env_var] *)

Lemma translate_nocr s : nocr s = true → translate_newlines s = s.
Proof.
  induction s as [|c s IH]; [done|]. rewrite nocr_cons.
  intros [Hc%negb_true_iff Hs]%andb_true_iff. by rewrite translate_cons, IH.
Qed.

(** Reading a text without CR and writing the lines gives the text. *)
Lemma writelines_readlines s : nocr s = true → writelines (readlines s) = s.
Proof.
  intros Hs. unfold readlines. by rewrite translate_nocr, writelines_split_lines.
Qed.

Lemma remove_entries_idem name ls :
  remove_entries name (remove_entries name ls) = remove_entries name ls.
Proof. apply remove_entries_id, declaring_remove_entries. Qed.

Lemma remove_entries_app name ls1 ls2 :
  remove_entries name (ls1 ++ ls2) = remove_entries name ls1 ++ remove_entries name ls2.
Proof. apply List.filter_app. Qed.

Lemma remove_entries_export_line name value :
  remove_entries name [export_line name value] = [].
Proof. unfold remove_entries. by rewrite filter_cons_if, declares_export_line. Qed.

Lemma remove_entries_sentinel name :
  remove_entries name [nl; marker +:+ nl] = [nl; marker +:+ nl].
Proof.
  unfold remove_entries. by rewrite !filter_cons_if, declares_nl, declares_marker.
Qed.

(** X6. On a text file without CR in which no line declares the name, a
    [set] that goes through appends to the text, byte for byte: the
    sentinel block if no line holds the sentinel text, then the new line.
    Nothing of the old text is touched, a last line without terminator
    included. *)
Theorem set_appends name value w s :
  config w = Text s → nocr s = true → declaring name (readlines s) = [] →
  name ≠ "" → mkdir_ok w = true → write_ok w = true →
  config (set_env_var name value true w).2
  = Text (s +:+ (if existsb (contains marker) (readlines s) then ""
                 else nl +:+ marker +:+ nl)
            +:+ export_line name value).
Proof.
  intros Hcfg Hs Hno Hname Hmk Hwr. rewrite set_env_var_run, Hmk, Hwr by done.
  cbn [snd config]. rewrite Hcfg. cbn [file_lines].
  rewrite patched_lines_eq, remove_entries_id, !writelines_app by done.
  rewrite writelines_readlines by done. f_equal. f_equal.
  destruct (existsb _ _); cbn [writelines foldr];
    by rewrite ?string_app_nil_r, ?string_app_assoc.
Qed.

Lemma set_appends_witness :
  config (set_env_var "FOO" "9" true (fresh (Text (marker +:+ nl +:+ "alias ll=ls")))).2
  = Text ((marker +:+ nl +:+ "alias ll=ls") +:+ "" +:+ export_line "FOO" "9").
Proof.
  by apply (set_appends "FOO" "9" (fresh (Text (marker +:+ nl +:+ "alias ll=ls")))).
Defined.

(** X7. The lines of the file after a [set] that goes through, for a name
    and a value without line terminator on a file whose lines all end in
    one: first the old lines that do not declare the name, in their order
    and with nothing between them; then a blank line and the sentinel, only
    if none of those lines holds the sentinel text; the new line is last. *)
Theorem set_lines_shape name value w :
  name ≠ "" → single_line name = true → single_line value = true →
  Forall (λ l, terminated l = true) (file_lines (config w)) →
  mkdir_ok w = true → write_ok w = true →
  file_lines (config (set_env_var name value true w).2)
  = remove_entries name (file_lines (config w))
    ++ (if existsb (contains marker) (remove_entries name (file_lines (config w)))
        then [] else [nl; marker +:+ nl])
    ++ [export_line name value]
  ∧ last (file_lines (config (set_env_var name value true w).2))
    = Some (export_line name value).
Proof.
  intros Hn Hsn Hsv Ht Hmk Hwr. rewrite set_env_var_lines by done.
  split; [done|]. by rewrite !app_assoc, last_snoc.
Qed.

Lemma set_lines_shape_witness :
  last (file_lines (config (set_env_var "FOO" "9" true
          (fresh (Text ("export FOO=1" +:+ nl +:+ "export BAR=2" +:+ nl)))).2))
  = Some (export_line "FOO" "9").
Proof.
  destruct (set_lines_shape "FOO" "9"
              (fresh (Text ("export FOO=1" +:+ nl +:+ "export BAR=2" +:+ nl))))
    as [_ H]; try done.
  vm_compute. by repeat constructor.
Defined.

(** X8. Setting a variable to the value it already has changes nothing:
    after a [set] that went through, the same [set] again writes the same
    text (name and value without line terminator, a file whose lines all
    end in one). *)
Theorem set_same_value_again name value w :
  name ≠ "" → single_line name = true → single_line value = true →
  Forall (λ l, terminated l = true) (file_lines (config w)) →
  mkdir_ok w = true → write_ok w = true →
  config (set_env_var name value true (set_env_var name value true w).2).2
  = config (set_env_var name value true w).2.
Proof.
  intros Hn Hsn Hsv Ht Hmk Hwr.
  destruct (set_env_var_flags name value w Hn Hmk Hwr) as [Hmk1 Hwr1].
  rewrite (set_env_var_run name value (set_env_var name value true w).2),
    Hmk1, Hwr1 by done.
  cbn [snd config]. rewrite set_env_var_lines by done.
  rewrite set_env_var_run, Hmk, Hwr by done. cbn [snd config]. f_equal.
  rewrite !patched_lines_eq, !remove_entries_app, remove_entries_idem,
    remove_entries_export_line, app_nil_r.
  destruct (existsb (contains marker) (remove_entries name (file_lines (config w))))
    eqn:Hex.
  - cbn [app remove_entries List.filter]. rewrite app_nil_r, Hex. done.
  - rewrite remove_entries_sentinel, existsb_app.
    change (existsb (contains marker) [nl; marker +:+ nl]) with true.
    rewrite orb_true_r, !writelines_app.
    change (writelines [nl; marker +:+ nl]) with (writelines [nl +:+ marker +:+ nl]).
    change (writelines [] +:+ writelines [export_line name value])
      with (writelines [export_line name value]).
    by rewrite string_app_assoc.
Qed.

Lemma set_same_value_again_witness :
  config (set_env_var "FOO" "9" true
            (set_env_var "FOO" "9" true (fresh (Text ("export BAR=2" +:+ nl)))).2).2
  = config (set_env_var "FOO" "9" true (fresh (Text ("export BAR=2" +:+ nl)))).2.
Proof.
  apply set_same_value_again; try done. vm_compute. by repeat constructor.
Defined.

(** ** Two variables *)

Lemma strip_export_line name value :
  strip (export_line name value)
  = "export " +:+ name +:+ "=" +:+ rstrip (value +:+ nl).
Proof.
  unfold strip, export_line.
  change (lstrip ("export " +:+ name +:+ "=" +:+ value +:+ nl))
    with ("export " +:+ name +:+ "=" +:+ value +:+ nl).
  assert (Hr : rstrip ("=" +:+ value +:+ nl) = "=" +:+ rstrip (value +:+ nl)).
  { by apply (rstrip_cons_keep "="%char). }
  assert (Hn : rstrip (name +:+ "=" +:+ value +:+ nl)
               = name +:+ "=" +:+ rstrip (value +:+ nl)).
  { rewrite rstrip_app_keep; by rewrite Hr. }
  rewrite (rstrip_app_keep "export "), Hn; [done|].
  rewrite Hn. by destruct name.
Qed.

Lemma no_equals_cons c s :
  no_equals (String c s) = negb (Ascii.eqb c "="%char) && no_equals s.
Proof. reflexivity. Qed.

(** Two names without ['='] of which one, followed by ['='], starts the
    other followed by ['='], are the same name. *)
Lemma prefix_names n1 n2 r :
  no_equals n1 = true → no_equals n2 = true →
  String.prefix (n2 +:+ "=") (n1 +:+ "=" +:+ r) = true → n2 = n1.
Proof.
  revert n1. induction n2 as [|a n2 IH]; intros [|c n1] H1 H2.
  - done.
  - change (String.prefix (String "="%char "") (String c (n1 +:+ "=" +:+ r)) = true → "" = String c n1).
    rewrite prefix_cons. rewrite no_equals_cons in H1.
    apply andb_true_iff in H1 as [H1%negb_true_iff _].
    rewrite Ascii.eqb_sym, H1. done.
  - change (String.prefix (String a (n2 +:+ "=")) (String "="%char r) = true → String a n2 = "").
    rewrite prefix_cons. rewrite no_equals_cons in H2.
    apply andb_true_iff in H2 as [H2%negb_true_iff _]. by rewrite H2.
  - change (String.prefix (String a (n2 +:+ "=")) (String c (n1 +:+ "=" +:+ r)) = true
            → String a n2 = String c n1).
    rewrite prefix_cons. rewrite no_equals_cons in H1, H2.
    apply andb_true_iff in H1 as [_ H1]. apply andb_true_iff in H2 as [_ H2].
    destruct (Ascii.eqb_spec a c) as [->|]; [|done].
    intros H. by rewrite (IH n1).
Qed.

(** The line of one variable does not declare another one. *)
Lemma declares_other_name n1 n2 value :
  no_equals n1 = true → no_equals n2 = true → n2 ≠ n1 →
  declares n2 (export_line n1 value) = false.
Proof.
  intros H1 H2 Hne. unfold declares, startswith, pattern.
  rewrite strip_export_line, (prefix_app "export ").
  destruct (String.prefix _ _) eqn:E; [|done].
  by apply prefix_names in E.
Qed.

Lemma declaring_remove_other n n' ls :
  declaring n ls = [] → declaring n (remove_entries n' ls) = [].
Proof.
  unfold declaring, remove_entries. intros H%filter_none.
  by apply filter_none, Forall_filter_keep.
Qed.

Lemma declaring_sentinel n : declaring n [nl; marker +:+ nl] = [].
Proof. unfold declaring. by rewrite !filter_cons_if, declares_nl, declares_marker. Qed.

(** X9. Setting one variable leaves the declaration of another alone: for
    two different names without ['='], after [set n1 v1] and [set n2 v2]
    the file has one line that declares [n1], [export n1=v1], and one that
    declares [n2], [export n2=v2] (names and values without line
    terminator, a file whose lines all end in one, the writes going
    through). *)
Theorem set_keeps_other_variable n1 v1 n2 v2 w :
  n1 ≠ "" → n2 ≠ "" → n2 ≠ n1 →
  no_equals n1 = true → no_equals n2 = true →
  single_line n1 = true → single_line v1 = true →
  single_line n2 = true → single_line v2 = true →
  Forall (λ l, terminated l = true) (file_lines (config w)) →
  mkdir_ok w = true → write_ok w = true →
  declaring n1 (file_lines (config
     (set_env_var n2 v2 true (set_env_var n1 v1 true w).2).2))
  = [export_line n1 v1]
  ∧ declaring n2 (file_lines (config
       (set_env_var n2 v2 true (set_env_var n1 v1 true w).2).2))
    = [export_line n2 v2].
Proof.
  intros Hn1 Hn2 Hne He1 He2 Hs1 Hsv1 Hs2 Hsv2 Ht Hmk Hwr.
  pose proof (set_env_var_terminated n1 v1 w Hn1 Hmk Hwr) as Ht1.
  destruct (set_env_var_flags n1 v1 w Hn1 Hmk Hwr) as [Hmk1 Hwr1].
  rewrite (set_env_var_lines n2 v2) by done.
  assert (H21 : declares n2 (export_line n1 v1) = false)
    by (by apply declares_other_name).
  assert (H12 : declares n1 (export_line n2 v2) = false)
    by (by apply declares_other_name).
  set (L1 := file_lines (config (set_env_var n1 v1 true w).2)) in *.
  assert (HL1 : declaring n1 (remove_entries n2 L1) = [export_line n1 v1]).
  { unfold L1. rewrite set_env_var_lines by done.
    rewrite !remove_entries_app. unfold declaring at 1.
    rewrite !List.filter_app.
    fold (declaring n1 (remove_entries n2 (remove_entries n1 (file_lines (config w))))).
    rewrite declaring_remove_other by apply declaring_remove_entries.
    assert (HE : List.filter (declares n1) (remove_entries n2 [export_line n1 v1])
                 = [export_line n1 v1]).
    { unfold remove_entries. rewrite filter_cons_if, H21. cbn [negb List.filter].
      by rewrite declares_export_line. }
    rewrite HE. destruct (existsb _ _); [done|].
    rewrite remove_entries_sentinel.
    fold (declaring n1 [nl; marker +:+ nl]). by rewrite declaring_sentinel. }
  unfold declaring in *. rewrite !List.filter_app.
  fold (declaring n2 (remove_entries n2 L1)). rewrite declaring_remove_entries.
  rewrite HL1, !filter_cons_if, H12, declares_export_line.
  destruct (existsb _ _); [done|].
  by rewrite !filter_cons_if, !declares_nl, !declares_marker.
Qed.

Lemma set_keeps_other_variable_witness :
  declaring "FOO" (file_lines (config
     (set_env_var "BAR" "2" true (set_env_var "FOO" "1" true (fresh Absent)).2).2))
  = [export_line "FOO" "1"].
Proof.
  destruct (set_keeps_other_variable "FOO" "1" "BAR" "2" (fresh Absent))
    as [H _]; done.
Defined.

(** ** Every run of [remove_env_var] *)

Lemma declaring_lines name w :
  declaring name (file_lines (config w)) ≠ [] → file_lines (config w) ≠ [].
Proof. by destruct (file_lines (config w)). Qed.

(** Some line declares [name]: what [remove_env_var] returns and the world
    it leaves, for both outcomes of the write. *)
Lemma remove_env_var_run name w :
  declaring name (file_lines (config w)) ≠ [] →
  remove_env_var name w
  = if write_ok w then
      (true,
       World (Text (writelines (remove_entries name (file_lines (config w)))))
             (backup_after w) (delete name (environ w)) (cp_ok w) (mkdir_ok w) true
             (trace (prepared w)
                ++ [EvOpenWrite; EvPrint (MsgRemoved name)]
                ++ (if bool_decide (is_Some (environ w !! name))
                    then [EvEnvDel name; EvPrint (MsgRemovedSession name)]
                    else [])))
    else (false, log_all [EvOpenWrite; EvPrint MsgErrWrite] (prepared w)).
Proof.
  intros Hd. pose proof (declaring_lines name w Hd) as Hne.
  rewrite remove_env_var_unfold, get_shell_config_content_run.
  rewrite bool_decide_false by done. rewrite backup_config_file_run.
  assert (Hlen : (length (remove_entries name (file_lines (config w)))
                  =? length (file_lines (config w))) = false).
  { apply Nat.eqb_neq. pose proof (remove_entries_length name (file_lines (config w))).
    destruct (declaring name (file_lines (config w))); [done|simpl in *; lia]. }
  rewrite Hlen. cbv [open_write]. cbn [write_ok log_all config].
  destruct w as [cfg bk env cp mk wr tr]. cbn [write_ok config environ].
  destruct wr; cbn [negb]; [|by unfold prepared; run_op].
  cbv zeta. cbv [log set_config log_all env_del set_environ prepared].
  cbn [config backup environ cp_ok mkdir_ok write_ok trace snd].
  destruct (bool_decide (is_Some (env !! name))) eqn:E.
  - by rewrite <- !app_assoc.
  - apply bool_decide_eq_false in E. rewrite <- eq_None_not_Some in E.
    rewrite (delete_id env name E). by rewrite <- !app_assoc.
Qed.

(** X10. A [remove] that succeeds takes out every line that declares the
    name, however many there are, and nothing else: the lines of the file
    are the old lines that do not declare it, unchanged and in their order,
    a last line without terminator included. *)
Theorem remove_keeps_other_lines name w :
  declaring name (file_lines (config w)) ≠ [] → write_ok w = true →
  (remove_env_var name w).1 = true
  ∧ file_lines (config (remove_env_var name w).2)
    = remove_entries name (file_lines (config w))
  ∧ declaring name (file_lines (config (remove_env_var name w).2)) = [].
Proof.
  intros Hd Hwr. rewrite remove_env_var_run, Hwr by done.
  cbn [fst snd config file_lines].
  rewrite readlines_writelines by apply well_split_filter, file_lines_well_split.
  split_and!; try done. apply declaring_remove_entries.
Qed.

Lemma remove_keeps_other_lines_witness :
  file_lines (config (remove_env_var "FOO"
    (fresh (Text ("export FOO=1" +:+ nl +:+ "# x" +:+ nl +:+ " export FOO=2" +:+ nl
                  +:+ "alias ll=ls")))).2)
  = ["# x" +:+ nl; "alias ll=ls"].
Proof.
  by destruct (remove_keeps_other_lines "FOO"
    (fresh (Text ("export FOO=1" +:+ nl +:+ "# x" +:+ nl +:+ " export FOO=2" +:+ nl
                  +:+ "alias ll=ls")))) as (_ & H & _).
Defined.

(** X11. [remove_env_var] returns [True] exactly when some line of the file
    declares the name and the write goes through; an absent, unreadable or
    empty file and a name no line declares give [False]. *)
Theorem remove_env_var_result name w :
  (remove_env_var name w).1
  = match declaring name (file_lines (config w)) with
    | [] => false
    | _ => write_ok w
    end.
Proof.
  destruct (declaring name (file_lines (config w))) as [|l ls] eqn:Hd.
  - destruct (file_lines (config w)) as [|l0 ls0] eqn:Hl.
    + by rewrite remove_env_var_no_lines.
    + rewrite remove_env_var_not_found; by rewrite ?Hl.
  - rewrite remove_env_var_run by (by rewrite Hd). by destruct (write_ok w).
Qed.

(** X12. [remove_env_var] takes the variable out of the process
    environment exactly when it returns [True]; when it fails, for whatever
    reason, the environment is what it was. Other variables are never
    touched. *)
Theorem remove_env_var_environ name w :
  environ (remove_env_var name w).2
  = if (remove_env_var name w).1 then delete name (environ w) else environ w.
Proof.
  destruct (declaring name (file_lines (config w))) as [|l ls] eqn:Hd.
  - destruct (file_lines (config w)) as [|l0 ls0] eqn:Hl.
    + by rewrite remove_env_var_no_lines.
    + rewrite remove_env_var_not_found; by rewrite ?Hl.
  - rewrite remove_env_var_run by (by rewrite Hd). by destruct (write_ok w).
Qed.

(** X13. After a [remove] that succeeded, the same [remove] again fails
    and leaves the file as it is. *)
Theorem remove_twice name w :
  declaring name (file_lines (config w)) ≠ [] → write_ok w = true →
  (remove_env_var name (remove_env_var name w).2).1 = false
  ∧ config (remove_env_var name (remove_env_var name w).2).2
    = config (remove_env_var name w).2.
Proof.
  intros Hd Hwr.
  assert (Hno : declaring name (file_lines (config (remove_env_var name w).2)) = []).
  { rewrite remove_env_var_run, Hwr by done. cbn [snd config file_lines].
    rewrite readlines_writelines by apply well_split_filter, file_lines_well_split.
    apply declaring_remove_entries. }
  set (w1 := (remove_env_var name w).2) in *.
  destruct (file_lines (config w1)) as [|l0 ls0] eqn:Hl.
  - by rewrite remove_env_var_no_lines.
  - rewrite remove_env_var_not_found; by rewrite ?Hl.
Qed.

Lemma remove_twice_witness :
  (remove_env_var "FOO" (remove_env_var "FOO"
     (fresh (Text ("export FOO=1" +:+ nl +:+ "export BAR=2" +:+ nl)))).2).1 = false.
Proof.
  by destruct (remove_twice "FOO"
    (fresh (Text ("export FOO=1" +:+ nl +:+ "export BAR=2" +:+ nl)))) as [H _].
Defined.

(** X14. [set] followed by [remove] of the same name gives back the lines
    that did not declare the name; the sentinel block that [set] added
    stays behind (name and value without line terminator, a file whose
    lines all end in one, the writes going through). *)
Theorem set_then_remove name value w :
  name ≠ "" → single_line name = true → single_line value = true →
  Forall (λ l, terminated l = true) (file_lines (config w)) →
  mkdir_ok w = true → write_ok w = true →
  (remove_env_var name (set_env_var name value true w).2).1 = true
  ∧ file_lines (config (remove_env_var name (set_env_var name value true w).2).2)
    = remove_entries name (file_lines (config w))
      ++ (if existsb (contains marker) (remove_entries name (file_lines (config w)))
          then [] else [nl; marker +:+ nl]).
Proof.
  intros Hn Hsn Hsv Ht Hmk Hwr.
  destruct (set_env_var_flags name value w Hn Hmk Hwr) as [Hmk1 Hwr1].
  pose proof (set_env_var_lines name value w Hn Hsn Hsv Ht Hmk Hwr) as HL.
  set (w1 := (set_env_var name value true w).2) in *.
  assert (Hrm : remove_entries name (file_lines (config w1))
                = remove_entries name (file_lines (config w))
                  ++ (if existsb (contains marker)
                           (remove_entries name (file_lines (config w)))
                      then [] else [nl; marker +:+ nl])).
  { rewrite HL, !remove_entries_app, remove_entries_idem,
      remove_entries_export_line, app_nil_r.
    destruct (existsb _ _); [done|]. by rewrite remove_entries_sentinel. }
  assert (Hd : declaring name (file_lines (config w1)) ≠ []).
  { rewrite HL. unfold declaring. rewrite !List.filter_app, filter_cons_if,
      declares_export_line.
    intros [_ [_ H]%app_eq_nil]%app_eq_nil. done. }
  rewrite remove_env_var_run, Hwr1 by done. cbn [fst snd config file_lines].
  rewrite readlines_writelines by apply well_split_filter, file_lines_well_split.
  by rewrite Hrm.
Qed.

Lemma set_then_remove_witness :
  file_lines (config (remove_env_var "FOO" (set_env_var "FOO" "1" true
     (fresh (Text (marker +:+ nl +:+ "export BAR=2" +:+ nl)))).2).2)
  = [marker +:+ nl; "export BAR=2" +:+ nl].
Proof.
  destruct (set_then_remove "FOO" "1"
    (fresh (Text (marker +:+ nl +:+ "export BAR=2" +:+ nl)))) as [_ H]; try done.
  vm_compute. by repeat constructor.
Defined.

Lemma nocr_app s t : nocr (s +:+ t) = nocr s && nocr t.
Proof.
  induction s as [|c s IH]; [done|].
  change (String c s +:+ t) with (String c (s +:+ t)).
  by rewrite !nocr_cons, IH, andb_assoc.
Qed.

Lemma nocr_writelines ls :
  Forall (λ l, nocr l = true) ls → nocr (writelines ls) = true.
Proof.
  induction 1 as [|l ls Hl _ IH]; [done|].
  cbn [writelines foldr]. rewrite nocr_app, Hl. exact IH.
Qed.

Lemma nocr_split_lines t :
  nocr t = true → Forall (λ l, nocr l = true) (split_lines t).
Proof.
  induction t as [|c t IH]; [constructor|]. rewrite nocr_cons.
  intros [Hc Ht]%andb_true_iff. specialize (IH Ht). cbn [split_lines].
  destruct (Ascii.eqb c LF).
  - constructor; [|done]. by rewrite nocr_cons, Hc.
  - destruct (split_lines t) as [|l0 ls].
    + repeat constructor. by rewrite nocr_cons, Hc.
    + inversion IH; subst. constructor; [|done]. rewrite nocr_cons, Hc. done.
Qed.

Lemma nocr_file_lines f : Forall (λ l, nocr l = true) (file_lines f).
Proof.
  destruct f; try constructor. apply nocr_split_lines, nocr_translate.
Qed.

(** X15. A [remove] that succeeds writes the lines it keeps as they were
    read, in text mode: the file it leaves has no CR, so CR LF and lone CR
    line ends of the old file are LF afterwards. *)
Theorem remove_normalises_line_ends name w :
  declaring name (file_lines (config w)) ≠ [] → write_ok w = true →
  ∃ t, config (remove_env_var name w).2 = Text t ∧ nocr t = true.
Proof.
  intros Hd Hwr. rewrite remove_env_var_run, Hwr by done. cbn [snd config].
  eexists. split; [reflexivity|].
  apply nocr_writelines, Forall_filter_keep, nocr_file_lines.
Qed.

Lemma remove_normalises_line_ends_witness :
  config (remove_env_var "FOO"
    (fresh (Text ("export FOO=1" +:+ cr +:+ nl +:+ "export BAR=2" +:+ cr +:+ nl)))).2
  = Text ("export BAR=2" +:+ nl).
Proof.
  destruct (remove_normalises_line_ends "FOO"
    (fresh (Text ("export FOO=1" +:+ cr +:+ nl +:+ "export BAR=2" +:+ cr +:+ nl))))
    as (t & Ht & _); try done.
Defined.

(** X16. The backup file after a permanent [set] (with a name) on a file
    that exists, and after a [remove] on a file that has lines, is the
    config file as it was before the call when [cp] works, whether the call
    then changes the file, finds nothing to remove, could not read the
    file, or fails to write; when [cp] fails the backup file is left as it
    was. *)
Theorem backup_is_previous_file name value w :
  name ≠ "" → config w ≠ Absent →
  backup (set_env_var name value true w).2
  = (if cp_ok w then config w else backup w)
  ∧ (file_lines (config w) ≠ [] →
     backup (remove_env_var name w).2
     = (if cp_ok w then config w else backup w)).
Proof.
  intros Hn Hc.
  assert (Hb : backup_after w = if cp_ok w then config w else backup w).
  { unfold backup_after. by destruct (config w). }
  split.
  - rewrite set_env_var_run by done. by destruct (mkdir_ok w), (write_ok w).
  - intros Hl. destruct (declaring name (file_lines (config w))) as [|l ls] eqn:Hd.
    + by rewrite remove_env_var_not_found.
    + rewrite remove_env_var_run by (by rewrite Hd). by destruct (write_ok w).
Qed.

Lemma backup_is_previous_file_witness :
  backup (set_env_var "FOO" "1" true (fresh Unreadable)).2 = Unreadable
  ∧ backup (remove_env_var "FOO" (fresh (Text ("export BAR=2" +:+ nl)))).2
    = Text ("export BAR=2" +:+ nl).
Proof.
  split.
  - by destruct (backup_is_previous_file "FOO" "1" (fresh Unreadable)) as [H _].
  - destruct (backup_is_previous_file "FOO" "1"
                (fresh (Text ("export BAR=2" +:+ nl)))) as [_ H]; [done..|].
    by apply H.
Defined.

(** X17. When the write of a [remove] fails ([open] raises), it returns
    [False], the config file is what it was and the variable stays in the
    process environment: the environment is only changed after the
    write. *)
Theorem remove_failed_write name w :
  declaring name (file_lines (config w)) ≠ [] → write_ok w = false →
  (remove_env_var name w).1 = false
  ∧ config (remove_env_var name w).2 = config w
  ∧ environ (remove_env_var name w).2 = environ w
  ∧ new_events w (remove_env_var name w).2
    = read_events (config w) ++ backup_events (config w) (cp_ok w)
      ++ [EvOpenWrite; EvPrint MsgErrWrite].
Proof.
  intros Hd Hwr. rewrite remove_env_var_run, Hwr by done.
  cbn [fst snd log_all prepared config environ]. split_and!; try done.
  by apply new_events_prepared.
Qed.

Lemma remove_failed_write_witness :
  environ (remove_env_var "FOO"
    (World (Text ("export FOO=1" +:+ nl)) Absent {["FOO" := "1"]} true true false [])).2
  = {["FOO" := "1"]}.
Proof.
  by destruct (remove_failed_write "FOO"
    (World (Text ("export FOO=1" +:+ nl)) Absent {["FOO" := "1"]} true true false []))
    as (_ & _ & H & _).
Defined.

(** ** The order of the file accesses *)

(** X18. In one run, [set_env_var] and [remove_env_var] read the config
    file at most once, run [cp] at most once, open the file for writing at
    most once, and never run [cp] after the file has been opened for
    writing. *)
Theorem one_read_one_backup_one_write name value permanent w :
  (let evs := new_events w (set_env_var name value permanent w).2 in
   count_events is_read evs ≤ 1 ∧ count_events is_backup evs ≤ 1
   ∧ count_events is_write evs ≤ 1 ∧ backup_before_write evs = true)
  ∧ (let evs := new_events w (remove_env_var name w).2 in
     count_events is_read evs ≤ 1 ∧ count_events is_backup evs ≤ 1
     ∧ count_events is_write evs ≤ 1 ∧ backup_before_write evs = true).
Proof.
  split; cbv zeta.
  - destruct (String.eqb_spec name "") as [->|Hname].
    { rewrite set_env_var_noname. cbn [snd].
      erewrite new_events_app by (cbn [log trace]; reflexivity).
      cbv; auto. }
    destruct permanent.
    + rewrite set_env_var_run by done.
      destruct (mkdir_ok w), (write_ok w); cbn [snd log_all];
        erewrite new_events_prepared by (cbn [trace]; reflexivity);
        destruct (config w), (cp_ok w); cbv; auto.
    + rewrite set_env_var_temp by done. cbn [snd].
      erewrite new_events_app by (cbn [log trace]; reflexivity).
      cbv; auto.
  - destruct (declaring name (file_lines (config w))) as [|l ls] eqn:Hd.
    + destruct (file_lines (config w)) as [|l0 ls0] eqn:Hl.
      * rewrite remove_env_var_no_lines by done. cbn [snd].
        erewrite new_events_app by (cbn [log_all trace]; reflexivity).
        destruct (config w); cbv; auto.
      * rewrite remove_env_var_not_found by (by rewrite ?Hl). cbn [snd].
        erewrite new_events_app by (cbn [trace]; reflexivity).
        destruct (config w), (cp_ok w); cbv; auto.
    + rewrite remove_env_var_run by (by rewrite Hd).
      destruct (write_ok w); cbn [snd log_all];
        erewrite new_events_prepared by (cbn [trace]; reflexivity);
        destruct (config w), (cp_ok w),
          (bool_decide (is_Some (environ w !! name))); cbv; auto.
Qed.

(** ** More on listing *)

Lemma length_listed fp env :
  length (listed fp env) = size (filtered_vars fp env).
Proof.
  unfold listed, sorted_keys.
  by rewrite length_fmap, merge_sort_Permutation, length_fmap, length_map_to_list.
Qed.

(** X19. [list_env_vars] prints either the one line that nothing was found,
    when no variable matches, or a header with the number of variables, a
    rule, and one line for each variable: the number in the header is the
    number of lines that follow the rule. *)
Theorem list_env_vars_output filter_pattern w :
  new_events w (list_env_vars filter_pattern w).2
  = match listed filter_pattern (environ w) with
    | [] => [EvPrint (MsgNoVars filter_pattern)]
    | entries =>
        EvPrint (MsgFound (length entries)) :: EvPrint MsgRule
        :: ((λ kv, EvPrint (MsgEntry kv.1 (display_value kv.2))) <$> entries)
    end.
Proof.
  rewrite list_env_vars_run. cbn [snd].
  erewrite new_events_app by (cbn [log_all trace]; reflexivity).
  pose proof (length_listed filter_pattern (environ w)) as Hlen.
  destruct (decide _) as [He|Hne].
  - rewrite He, map_size_empty in Hlen.
    by destruct (listed filter_pattern (environ w)).
  - apply map_size_non_empty_iff in Hne.
    destruct (listed filter_pattern (environ w)) as [|e es] eqn:E; [done|].
    by rewrite <- Hlen.
Qed.

Lemma lower_char_eqb a c :
  Ascii.eqb a c = true → Ascii.eqb (lower_char a) (lower_char c) = true.
Proof. intros ->%Ascii.eqb_eq. apply Ascii.eqb_refl. Qed.

Lemma prefix_lower p s :
  String.prefix p s = true → String.prefix (lower p) (lower s) = true.
Proof.
  revert s. induction p as [|a p IH]; intros s; [by rewrite !prefix_nil|].
  destruct s as [|c s]; [done|]. cbn [lower]. rewrite !prefix_cons.
  destruct (Ascii.eqb a c) eqn:E; [|done].
  rewrite (lower_char_eqb a c E). apply IH.
Qed.

Lemma contains_lower p s :
  contains p s = true → contains (lower p) (lower s) = true.
Proof.
  induction s as [|c s IH].
  - destruct p; [done|]. done.
  - rewrite contains_cons. cbn [lower]. rewrite contains_cons.
    intros [H|H]%orb_true_iff; apply orb_true_iff.
    + left. by apply (prefix_lower p (String c s)).
    + right. by apply IH.
Qed.

Lemma length_append s t : String.length (s +:+ t) = String.length s + String.length t.
Proof.
  induction s as [|c s IH]; [done|].
  change (String c s +:+ t) with (String c (s +:+ t)). cbn [String.length].
  by rewrite IH.
Qed.

Lemma length_take_prefix n s :
  n ≤ String.length s → String.length (take_prefix n s) = n.
Proof.
  revert s. induction n as [|n IH]; intros s Hn; [by destruct s|].
  destruct s as [|c s]; cbn [String.length] in *; [lia|].
  cbn [take_prefix String.length]. rewrite IH; lia.
Qed.

Lemma prefix_take_prefix n s : String.prefix (take_prefix n s) s = true.
Proof.
  revert s. induction n as [|n IH]; intros s; [by destruct s|].
  destruct s as [|c s]; [done|]. cbn [take_prefix].
  by rewrite prefix_cons, Ascii.eqb_refl.
Qed.

(** X21. What [list_env_vars] shows of a value is never longer than 100
    characters: a value of up to 100 characters is shown as it is, a longer
    one as its first 97 characters and three dots, 100 characters in
    all. *)
Theorem display_value_bound value :
  len (display_value value) ≤ 100
  ∧ (len value ≤ 100 → display_value value = value)
  ∧ (100 < len value →
     display_value value = take_prefix 97 value +:+ "..."
     ∧ len (display_value value) = 100
     ∧ String.prefix (take_prefix 97 value) value = true).
Proof.
  unfold display_value, len.
  destruct (Nat.leb_spec (String.length value) 100) as [Hle|Hgt].
  - split_and!; [done|done|lia].
  - assert (Hlen : String.length (take_prefix 97 value +:+ "...") = 100).
    { rewrite length_append, length_take_prefix by lia. done. }
    split_and!; [lia|lia|]. intros _. split_and!; try done.
    apply prefix_take_prefix.
Qed.

Lemma display_value_bound_witness :
  len (display_value
         "0123456789012345678901234567890123456789012345678901234567890123456789012345678901234567890123456789abc")
  = 100.
Proof.
  by destruct (display_value_bound
    "0123456789012345678901234567890123456789012345678901234567890123456789012345678901234567890123456789abc")
    as (_ & _ & H); destruct H as (_ & H & _); [vm_compute; lia|].
Defined.

(** ** [remove_env_var] before other operations *)

Lemma remove_env_var_view name w :
  remove_entries name (file_lines (config (remove_env_var name w).2))
  = remove_entries name (file_lines (config w))
  ∧ mkdir_ok (remove_env_var name w).2 = mkdir_ok w
  ∧ write_ok (remove_env_var name w).2 = write_ok w.
Proof.
  destruct (declaring name (file_lines (config w))) as [|l ls] eqn:Hd.
  - destruct (file_lines (config w)) as [|l0 ls0] eqn:Hl.
    + rewrite remove_env_var_no_lines by done. cbn [snd log_all config].
      by rewrite Hl.
    + rewrite remove_env_var_not_found by (by rewrite ?Hl). cbn [snd config].
      by rewrite Hl.
  - rewrite remove_env_var_run by (by rewrite Hd).
    destruct (write_ok w) eqn:Hwr; cbn [snd log_all prepared config file_lines];
      [|done].
    rewrite readlines_writelines by apply well_split_filter, file_lines_well_split.
    by rewrite remove_entries_idem.
Qed.

(** X22. Removing a variable before setting it makes no difference to the
    file: [remove name] followed by [set name value] writes the same text
    as [set name value] alone, whether the [remove] found the variable or
    not. *)
Theorem remove_then_set name value w :
  name ≠ "" → mkdir_ok w = true → write_ok w = true →
  config (set_env_var name value true (remove_env_var name w).2).2
  = config (set_env_var name value true w).2.
Proof.
  intros Hn Hmk Hwr. destruct (remove_env_var_view name w) as (Hre & Hmk' & Hwr').
  rewrite !set_env_var_run by done. rewrite Hmk', Hwr', Hmk, Hwr. cbn [snd config].
  by rewrite !patched_lines_eq, Hre.
Qed.

Lemma remove_then_set_witness :
  config (set_env_var "FOO" "2" true (remove_env_var "FOO"
            (fresh (Text ("export FOO=1" +:+ nl)))).2).2
  = config (set_env_var "FOO" "2" true (fresh (Text ("export FOO=1" +:+ nl)))).2.
Proof. by apply remove_then_set. Defined.

(** X23. After a [remove] that succeeded, [list_env_vars] goes through the
    same pairs as before without the removed variable; after one that
    failed, through the same pairs as before. *)
Theorem list_after_remove name filter_pattern w k v :
  (k, v) ∈ listed filter_pattern (environ (remove_env_var name w).2)
  ↔ (k, v) ∈ listed filter_pattern (environ w)
    ∧ ((remove_env_var name w).1 = true → k ≠ name).
Proof.
  rewrite !elem_of_listed.
  assert (He : environ (remove_env_var name w).2
               = if (remove_env_var name w).1 then delete name (environ w)
                 else environ w).
  { destruct (declaring name (file_lines (config w))) as [|l ls] eqn:Hd.
    - destruct (file_lines (config w)) as [|l0 ls0] eqn:Hl.
      + by rewrite remove_env_var_no_lines.
      + rewrite remove_env_var_not_found; by rewrite ?Hl.
    - rewrite remove_env_var_run by (by rewrite Hd). by destruct (write_ok w). }
  rewrite He. destruct (remove_env_var name w).1.
  - rewrite lookup_delete_Some. intuition congruence.
  - intuition congruence.
Qed.

(** ** The first [set] on a file *)

(** X24. When no kept line holds the sentinel text, a [set] that goes
    through leaves the kept lines, the sentinel line and the new line, and
    the line feed the sentinel block starts with ends the last kept line if
    that had no terminator (and is a blank line otherwise): the last line
    of a file without final newline is not run together with what is
    added. *)
Theorem set_first_time_lines name value w :
  name ≠ "" → single_line name = true → single_line value = true →
  existsb (contains marker) (remove_entries name (file_lines (config w))) = false →
  mkdir_ok w = true → write_ok w = true →
  file_lines (config (set_env_var name value true w).2)
  = close_last (remove_entries name (file_lines (config w)))
    ++ [marker +:+ nl; export_line name value].
Proof.
  intros Hn Hsn Hsv Hm Hmk Hwr. rewrite set_env_var_run, Hmk, Hwr by done.
  cbn [snd config file_lines].
  rewrite readback_open by (done || apply file_lines_well_split).
  by rewrite readlines_export_line.
Qed.

Lemma set_first_time_lines_witness :
  file_lines (config (set_env_var "FOO" "9" true (fresh (Text "alias ll=ls"))).2)
  = ["alias ll=ls" +:+ nl; marker +:+ nl; export_line "FOO" "9"].
Proof. by apply (set_first_time_lines "FOO" "9" (fresh (Text "alias ll=ls"))). Defined.

(** * Case in the filter of [list_env_vars] *)






(** The two models of [str.lower] and of [in] agree on U+0000..U+00FF. *)
Lemma ulower_char_embed a : ulower_char (N_of_ascii a) = N_of_ascii (lower_char a).
Proof.
  unfold ulower_char, lower_char. pose proof (N_ascii_bounded a) as Hb.
  destruct ((65 <=? N_of_ascii a) && (N_of_ascii a <=? 90)
            || (192 <=? N_of_ascii a) && (N_of_ascii a <=? 222)
               && negb (N_of_ascii a =? 215))%N eqn:E.
  - rewrite N_ascii_embedding; [done|].
    rewrite orb_true_iff, !andb_true_iff, !N.leb_le in E. lia.
  - destruct (N.eqb_spec (N_of_ascii a) 913); [lia|done].
Qed.

Lemma ulower_go_embed before s : ulower_go before (embed s) = embed (lower s).
Proof.
  revert before. induction s as [|c s IH]; intros before; [done|].
  change (embed (String c s)) with (N_of_ascii c :: embed s).
  change (embed (lower (String c s)))
    with (N_of_ascii (lower_char c) :: embed (lower s)).
  cbn [ulower_go]. pose proof (N_ascii_bounded c) as Hb.
  destruct (N.eqb_spec (N_of_ascii c) 931); [lia|].
  by rewrite ulower_char_embed, IH.
Qed.

Lemma ulower_embed s : ulower (embed s) = embed (lower s).
Proof. apply ulower_go_embed. Qed.

Lemma N_of_ascii_eqb a c : (N_of_ascii a =? N_of_ascii c)%N = Ascii.eqb a c.
Proof.
  destruct (Ascii.eqb_spec a c) as [->|Hne]; [apply N.eqb_refl|].
  apply N.eqb_neq. intros H. apply Hne.
  by rewrite <- (ascii_N_embedding a), <- (ascii_N_embedding c), H.
Qed.

Lemma uprefix_embed p s : uprefix (embed p) (embed s) = String.prefix p s.
Proof.
  revert s. induction p as [|a p IH]; intros s; [by rewrite prefix_nil|].
  destruct s as [|c s]; [done|].
  change (uprefix (N_of_ascii a :: embed p) (N_of_ascii c :: embed s)
          = String.prefix (String a p) (String c s)).
  cbn [uprefix]. rewrite prefix_cons, N_of_ascii_eqb, IH.
  by destruct (Ascii.eqb a c).
Qed.

Lemma ucontains_embed p s : ucontains (embed p) (embed s) = contains p s.
Proof.
  induction s as [|c s IH].
  - cbn [embed ucontains contains]. by rewrite <- (uprefix_embed p "").
  - change (embed (String c s)) with (N_of_ascii c :: embed s).
    cbn [ucontains]. rewrite contains_cons, IH.
    by rewrite <- (uprefix_embed p (String c s)).
Qed.

(** On texts of U+0000..U+00FF the test of line 33 is the same in both
    models. *)
Lemma line_33_embed p k :
  ucontains (ulower (embed p)) (ulower (embed k)) = contains (lower p) (lower k).
Proof. by rewrite !ulower_embed, ucontains_embed. Qed.



(** * [remove_env_var] with the empty name on a file without lines *)

(** C10, as stated, fails on a file that has no line: [remove_env_var]
    with the empty name stops after reading, with the message that there is
    no configuration file; no [cp] is run and the not-found message is not
    printed. *)
Lemma remove_empty_name_on_empty_file :
  declaring "" (file_lines (config (fresh (Text "")))) = []
  ∧ new_events (fresh (Text "")) (remove_env_var "" (fresh (Text ""))).2
    = [EvExists; EvOpenRead; EvPrint MsgNoConfig]
  ∧ ¬ not_found_outcome "" (fresh (Text "")).
Proof.
  assert (He : new_events (fresh (Text "")) (remove_env_var "" (fresh (Text ""))).2
               = [EvExists; EvOpenRead; EvPrint MsgNoConfig]).
  { rewrite remove_env_var_no_lines by done. by apply new_events_app. }
  split_and!; try done.
  intros (_ & H & _). rewrite He in H. cbn [In] in H. intuition discriminate.
Qed.

(** X20. For a filter and keys of characters U+0000..U+00FF the filter never
    hides a literal match: a variable whose key holds the filter text as it
    is written passes the test of line 33, also in the model with
    characters beyond U+00FF, and is among the pairs that [list_env_vars]
    goes through. (Beyond U+00FF a literal match can be hidden, see
    [list_hides_key_with_capital_sigma].) *)
Theorem list_shows_literal_match p env k v :
  env !! k = Some v → contains p k = true →
  (k, v) ∈ listed (Some p) env
  ∧ ucontains (ulower (embed p)) (ulower (embed k)) = true.
Proof.
  intros Hk Hc. split.
  - apply elem_of_listed. split; [done|]. by apply contains_lower.
  - rewrite line_33_embed. by apply contains_lower.
Qed.

Lemma list_shows_literal_match_witness :
  ("MY_PATH", "x") ∈ listed (Some "PATH") {["MY_PATH" := "x"]}.
Proof.
  by destruct (list_shows_literal_match "PATH" {["MY_PATH" := "x"]} "MY_PATH" "x")
    as [H _].
Defined.
